(** * The emulator lifecycle controller and the export coordinator

    A shallow embedding of [emulator/controller.ts] (startEmulator,
    cleanShutdown, filterEmulatorTargets, shouldStart, startAll) and of
    [emulator/hubExport.ts] (HubExport.exportAll and its helpers), with the
    Node and JavaScript primitives they call (path.join, path.resolve,
    JSON.stringify, JSON.parse, fs) written out as functions on strings.

    Conventions.  A JavaScript string is the sequence of its UTF-8 bytes; a
    promise that is awaited is a computation in the monad [M] below, and a
    rejection or a thrown exception is the [Err] outcome: the state reached
    when the exception was raised is kept, because nothing is rolled back in
    the source.  The calls of utils.logBullet, utils.logWarning and the like
    only print and are left out. *)

From Stdlib Require Import String Ascii ZArith List Bool Lia.
From stdpp Require Import base strings pretty gmap.

Import ListNotations.
Local Open Scope string_scope.
Local Open Scope Z_scope.

(** ** Strings *)

Module Str.

(** The double quote character, U+0022. *)
Definition dquote : ascii := Eval cbv in ascii_of_nat 34.
Definition backslash : ascii := Eval cbv in ascii_of_nat 92.
Definition slash : ascii := Eval cbv in ascii_of_nat 47.

Definition char (c : ascii) : string := String c EmptyString.

Definition isEmpty (s : string) : bool :=
  match s with EmptyString => true | _ => false end.

(** [s.split(sep)] for a one character separator. *)
Fixpoint split (sep : ascii) (s : string) : list string :=
  match s with
  | EmptyString => [EmptyString]
  | String c r =>
      if Ascii.eqb c sep then EmptyString :: split sep r
      else match split sep r with
           | h :: t => String c h :: t
           | [] => [char c]
           end
  end.

(** [l.join(sep)]. *)
Fixpoint join (sep : string) (l : list string) : string :=
  match l with
  | [] => EmptyString
  | [x] => x
  | x :: r => x ++ sep ++ join sep r
  end.

Fixpoint last_char (s : string) : option ascii :=
  match s with
  | EmptyString => None
  | String c EmptyString => Some c
  | String _ r => last_char r
  end.

Definition first_char (s : string) : option ascii :=
  match s with
  | EmptyString => None
  | String c _ => Some c
  end.

Definition is_char (c : ascii) (o : option ascii) : bool :=
  match o with Some d => Ascii.eqb c d | None => false end.

End Str.

(** ** Node's [path] module, POSIX flavour *)

Module path.

(** [normalizeString(path, allowAboveRoot)]: the segments of [path] with
    the empty ones and the dots dropped and every double dot resolved
    against the segment before it.  [acc] holds the result so far, last
    segment first. *)
Fixpoint normalizeSegments (allowAboveRoot : bool) (segs acc : list string)
  : list string :=
  match segs with
  | [] => rev acc
  | seg :: rest =>
      if Str.isEmpty seg || String.eqb seg "." then
        normalizeSegments allowAboveRoot rest acc
      else if String.eqb seg ".." then
        match acc with
        | prev :: acc' =>
            if String.eqb prev ".." then
              normalizeSegments allowAboveRoot rest
                (if allowAboveRoot then ".." :: acc else acc)
            else normalizeSegments allowAboveRoot rest acc'
        | [] =>
            normalizeSegments allowAboveRoot rest
              (if allowAboveRoot then [".."] else [])
        end
      else normalizeSegments allowAboveRoot rest (seg :: acc)
  end.

Definition normalizeString (p : string) (allowAboveRoot : bool) : string :=
  Str.join "/" (normalizeSegments allowAboveRoot (Str.split Str.slash p) []).

Definition isAbsolute (p : string) : bool :=
  Str.is_char Str.slash (Str.first_char p).

(** [path.normalize(p)]. *)
Definition normalize (p : string) : string :=
  if Str.isEmpty p then "."
  else
    let absolute := isAbsolute p in
    let trailingSeparator := Str.is_char Str.slash (Str.last_char p) in
    let q := normalizeString p (negb absolute) in
    if Str.isEmpty q then
      (if absolute then "/" else if trailingSeparator then "./" else ".")
    else
      let q := if trailingSeparator then q ++ "/" else q in
      if absolute then "/" ++ q else q.

(** [path.join(a, b)]: the arguments that are not empty, joined by a slash
    and normalized. *)
Definition join (a b : string) : string :=
  match Str.isEmpty a, Str.isEmpty b with
  | true, true => "."
  | true, false => normalize b
  | false, true => normalize a
  | false, false => normalize (a ++ "/" ++ b)
  end.

(** [path.resolve(p)] in a process whose working directory is [cwd]. *)
Definition resolve (cwd p : string) : string :=
  let fromCwd (resolved : string) :=
    if Str.isEmpty cwd then (resolved, false)
    else (cwd ++ "/" ++ resolved, isAbsolute cwd) in
  let '(resolved, absolute) :=
    if Str.isEmpty p then fromCwd EmptyString
    else if isAbsolute p then (p ++ "/", true)
    else fromCwd (p ++ "/") in
  let q := normalizeString resolved (negb absolute) in
  if absolute then "/" ++ q
  else if Str.isEmpty q then "." else q.

End path.

(** ** JSON values, [JSON.stringify] and [JSON.parse] *)

Module JSON.

(** A parsed JSON text.  A number keeps its literal, which is all the
    controller looks at. *)
#[warnings="-register-all"]
Inductive value : Type :=
| Null
| Bool (b : bool)
| Number (literal : string)
| Str (s : string)
| Array (items : list value)
| Object (members : list (string * value)).

Definition hexDigit (n : N) : ascii :=
  match String.get (N.to_nat n) "0123456789abcdef" with
  | Some c => c
  | None => "0"%char
  end.

(** The text JSON.stringify writes for one character of a string. *)
Definition escapeChar (c : ascii) : string :=
  if Ascii.eqb c Str.dquote then String Str.backslash (Str.char Str.dquote)
  else if Ascii.eqb c Str.backslash then String Str.backslash (Str.char Str.backslash)
  else
    let n := N_of_ascii c in
    if N.eqb n 8 then "\b"
    else if N.eqb n 9 then "\t"
    else if N.eqb n 10 then "\n"
    else if N.eqb n 12 then "\f"
    else if N.eqb n 13 then "\r"
    else if N.ltb n 32 then
      "\u00" ++ Str.char (hexDigit (N.div n 16)) ++ Str.char (hexDigit (N.modulo n 16))
    else Str.char c.

Fixpoint escape (s : string) : string :=
  match s with
  | EmptyString => EmptyString
  | String c r => escapeChar c ++ escape r
  end.

Definition quote (s : string) : string :=
  String Str.dquote (escape s ++ Str.char Str.dquote).

(** [JSON.stringify(v)], without indentation. *)
Fixpoint stringify (v : value) : string :=
  match v with
  | Null => "null"
  | Bool true => "true"
  | Bool false => "false"
  | Number literal => literal
  | Str s => quote s
  | Array items => "[" ++ Str.join "," (map stringify items) ++ "]"
  | Object members =>
      "{" ++ Str.join ","
               (map (fun m : string * value =>
                       quote (fst m) ++ ":" ++ stringify (snd m)) members)
          ++ "}"
  end.

(** *** Parsing *)

Definition isWhitespace (c : ascii) : bool :=
  let n := N_of_ascii c in
  N.eqb n 32 || N.eqb n 9 || N.eqb n 10 || N.eqb n 13.

Fixpoint skipWhitespace (s : string) : string :=
  match s with
  | String c r => if isWhitespace c then skipWhitespace r else s
  | EmptyString => s
  end.

Definition isDigit (c : ascii) : bool :=
  let n := N_of_ascii c in N.leb 48 n && N.leb n 57.

Fixpoint takeDigits (s : string) : string * string :=
  match s with
  | String c r =>
      if isDigit c then let '(d, rest) := takeDigits r in (String c d, rest)
      else (EmptyString, s)
  | EmptyString => (EmptyString, s)
  end.

Definition hexValue (c : ascii) : option N :=
  let n := N_of_ascii c in
  if N.leb 48 n && N.leb n 57 then Some (n - 48)%N
  else if N.leb 97 n && N.leb n 102 then Some (n - 87)%N
  else if N.leb 65 n && N.leb n 70 then Some (n - 55)%N
  else None.

Definition hex4 (a b c d : ascii) : option N :=
  match hexValue a, hexValue b, hexValue c, hexValue d with
  | Some x, Some y, Some z, Some w => Some (((x * 16 + y) * 16 + z) * 16 + w)%N
  | _, _, _, _ => None
  end.

Definition byte (n : N) : ascii := ascii_of_N n.

(** The UTF-8 bytes of a code point. *)
Definition utf8 (n : N) : string :=
  (if n <? 128 then Str.char (byte n)
   else if n <? 2048 then
     String (byte (192 + n / 64)) (Str.char (byte (128 + n mod 64)))
   else if n <? 65536 then
     String (byte (224 + n / 4096))
       (String (byte (128 + (n / 64) mod 64)) (Str.char (byte (128 + n mod 64))))
   else
     String (byte (240 + n / 262144))
       (String (byte (128 + (n / 4096) mod 64))
          (String (byte (128 + (n / 64) mod 64))
             (Str.char (byte (128 + n mod 64))))))%N.

Definition isHighSurrogate (n : N) : bool := (N.leb 55296 n && N.ltb n 56320)%N.
Definition isLowSurrogate (n : N) : bool := (N.leb 56320 n && N.ltb n 57344)%N.

Definition simpleEscape (e : ascii) : option ascii :=
  if Ascii.eqb e Str.dquote then Some Str.dquote
  else if Ascii.eqb e Str.backslash then Some Str.backslash
  else if Ascii.eqb e "/" then Some "/"%char
  else if Ascii.eqb e "b" then Some (byte 8)
  else if Ascii.eqb e "f" then Some (byte 12)
  else if Ascii.eqb e "n" then Some (byte 10)
  else if Ascii.eqb e "r" then Some (byte 13)
  else if Ascii.eqb e "t" then Some (byte 9)
  else None.

Definition consChars (pre : string) (r : option (string * string))
  : option (string * string) :=
  match r with
  | Some (t, rest) => Some (pre ++ t, rest)
  | None => None
  end.

(** The characters of a string literal after its opening quote, up to and
    including the closing quote.  A surrogate escape that has no partner
    names no UTF-8 text and is refused. *)
Fixpoint parseChars (s : string) : option (string * string) :=
  match s with
  | EmptyString => None
  | String c r =>
      if Ascii.eqb c Str.dquote then Some (EmptyString, r)
      else if Ascii.eqb c Str.backslash then
        match r with
        | String e r1 =>
            match simpleEscape e with
            | Some ch => consChars (Str.char ch) (parseChars r1)
            | None =>
                if Ascii.eqb e "u" then
                  match r1 with
                  | String h1 (String h2 (String h3 (String h4 r2))) =>
                      match hex4 h1 h2 h3 h4 with
                      | Some hi =>
                          if isHighSurrogate hi then
                            match r2 with
                            | String b (String u (String l1 (String l2 (String l3 (String l4 r3))))) =>
                                if Ascii.eqb b Str.backslash && Ascii.eqb u "u" then
                                  match hex4 l1 l2 l3 l4 with
                                  | Some lo =>
                                      if isLowSurrogate lo then
                                        consChars
                                          (utf8 (65536 + (hi - 55296) * 1024 + (lo - 56320))%N)
                                          (parseChars r3)
                                      else None
                                  | None => None
                                  end
                                else None
                            | _ => None
                            end
                          else if isLowSurrogate hi then None
                          else consChars (utf8 hi) (parseChars r2)
                      | None => None
                      end
                  | _ => None
                  end
                else None
            end
        | EmptyString => None
        end
      else if N.ltb (N_of_ascii c) 32 then None
      else consChars (Str.char c) (parseChars r)
  end.

(** A number literal: sign, integer part, fraction, exponent. *)
Definition parseNumber (s : string) : option (string * string) :=
  let '(sign, s1) :=
    match s with
    | String c r => if Ascii.eqb c "-" then ("-", r) else (EmptyString, s)
    | EmptyString => (EmptyString, s)
    end in
  let '(int, s2) := takeDigits s1 in
  let intOk :=
    match int with
    | EmptyString => false
    | String c EmptyString => true
    | String c _ => negb (Ascii.eqb c "0")
    end in
  if negb intOk then None
  else
    let frac :=
      match s2 with
      | String c r =>
          if Ascii.eqb c "." then
            let '(d, rest) := takeDigits r in
            if Str.isEmpty d then None else Some ("." ++ d, rest)
          else Some (EmptyString, s2)
      | EmptyString => Some (EmptyString, s2)
      end in
    match frac with
    | None => None
    | Some (f, s3) =>
        let exp :=
          match s3 with
          | String c r =>
              if Ascii.eqb c "e" || Ascii.eqb c "E" then
                let '(sg, r1) :=
                  match r with
                  | String g r' =>
                      if Ascii.eqb g "+" || Ascii.eqb g "-"
                      then (Str.char g, r') else (EmptyString, r)
                  | EmptyString => (EmptyString, r)
                  end in
                let '(d, rest) := takeDigits r1 in
                if Str.isEmpty d then None else Some (Str.char c ++ sg ++ d, rest)
              else Some (EmptyString, s3)
          | EmptyString => Some (EmptyString, s3)
          end in
        match exp with
        | None => None
        | Some (e, s4) => Some (sign ++ int ++ f ++ e, s4)
        end
    end.

Fixpoint dropPrefix (p s : string) : option string :=
  match p, s with
  | EmptyString, _ => Some s
  | String a p', String b s' => if Ascii.eqb a b then dropPrefix p' s' else None
  | String _ _, EmptyString => None
  end.

(** Recursive descent; [fuel] bounds the nesting and the number of
    elements, and [parse] gives more than a text of that length can use. *)
Fixpoint parseValue (fuel : nat) (s : string) : option (value * string) :=
  match fuel with
  | O => None
  | S fuel =>
      match skipWhitespace s with
      | EmptyString => None
      | String c r =>
          if Ascii.eqb c "{" then
            match skipWhitespace r with
            | String d r' =>
                if Ascii.eqb d "}" then Some (Object [], r')
                else option_map (fun '(ms, rest) => (Object ms, rest))
                       (parseMembers fuel r)
            | EmptyString => None
            end
          else if Ascii.eqb c "[" then
            match skipWhitespace r with
            | String d r' =>
                if Ascii.eqb d "]" then Some (Array [], r')
                else option_map (fun '(vs, rest) => (Array vs, rest))
                       (parseElements fuel r)
            | EmptyString => None
            end
          else if Ascii.eqb c Str.dquote then
            option_map (fun '(t, rest) => (Str t, rest)) (parseChars r)
          else if Ascii.eqb c "t" then
            option_map (fun rest => (Bool true, rest)) (dropPrefix "rue" r)
          else if Ascii.eqb c "f" then
            option_map (fun rest => (Bool false, rest)) (dropPrefix "alse" r)
          else if Ascii.eqb c "n" then
            option_map (fun rest => (Null, rest)) (dropPrefix "ull" r)
          else
            option_map (fun '(l, rest) => (Number l, rest))
              (parseNumber (String c r))
      end
  end
with parseElements (fuel : nat) (s : string) : option (list value * string) :=
  match fuel with
  | O => None
  | S fuel =>
      match parseValue fuel s with
      | Some (v, r) =>
          match skipWhitespace r with
          | String d r' =>
              if Ascii.eqb d "," then
                option_map (fun '(vs, rest) => (v :: vs, rest))
                  (parseElements fuel r')
              else if Ascii.eqb d "]" then Some ([v], r')
              else None
          | EmptyString => None
          end
      | None => None
      end
  end
with parseMembers (fuel : nat) (s : string)
  : option (list (string * value) * string) :=
  match fuel with
  | O => None
  | S fuel =>
      match skipWhitespace s with
      | String q r =>
          if Ascii.eqb q Str.dquote then
            match parseChars r with
            | Some (k, r1) =>
                match skipWhitespace r1 with
                | String c r2 =>
                    if Ascii.eqb c ":" then
                      match parseValue fuel r2 with
                      | Some (v, r3) =>
                          match skipWhitespace r3 with
                          | String d r4 =>
                              if Ascii.eqb d "," then
                                option_map
                                  (fun '(ms, rest) => ((k, v) :: ms, rest))
                                  (parseMembers fuel r4)
                              else if Ascii.eqb d "}" then Some ([(k, v)], r4)
                              else None
                          | EmptyString => None
                          end
                      | None => None
                      end
                    else None
                | EmptyString => None
                end
            | None => None
            end
          else None
      | EmptyString => None
      end
  end.

(** [JSON.parse(text)]; [None] is the SyntaxError. *)
Definition parse (text : string) : option value :=
  match parseValue (2 * String.length text + 2) text with
  | Some (v, rest) =>
      if Str.isEmpty (skipWhitespace rest) then Some v else None
  | None => None
  end.

(** The last member named [key], as property lookup on a parsed object
    finds it. *)
Fixpoint member (key : string) (members : list (string * value))
  : option value :=
  match members with
  | [] => None
  | (k, v) :: rest =>
      match member key rest with
      | Some w => Some w
      | None => if String.eqb k key then Some v else None
      end
  end.

Fixpoint allZero (s : string) : bool :=
  match s with
  | EmptyString => true
  | String c r =>
      if Ascii.eqb c "e" || Ascii.eqb c "E" then true
      else (negb (isDigit c) || Ascii.eqb c "0") && allZero r
  end.

(** JavaScript truthiness of a parsed value. *)
Definition truthy (v : value) : bool :=
  match v with
  | Null => false
  | Bool b => b
  | Number literal => negb (allZero literal)
  | Str s => negb (Str.isEmpty s)
  | Array _ | Object _ => true
  end.

End JSON.

(** ** The emulator kinds *)

(** Modelled from the spec: the enumeration [Emulators] and the lists
    ALL_SERVICE_EMULATORS, ALL_EMULATORS and IMPORT_EXPORT_EMULATORS of
    [emulator/types.ts], which is not among the sources.  The six kinds are
    those of the data model; a kind's value is its lower case name, the one
    that configuration keys and the --only filter use; the hub is the one
    kind that is no service; the document database is the kind that can be
    exported. *)
Inductive Emulators : Type :=
| HUB | FUNCTIONS | FIRESTORE | DATABASE | HOSTING | PUBSUB.

Definition Emulators_value (e : Emulators) : string :=
  match e with
  | HUB => "hub"
  | FUNCTIONS => "functions"
  | FIRESTORE => "firestore"
  | DATABASE => "database"
  | HOSTING => "hosting"
  | PUBSUB => "pubsub"
  end.

(** [a === b] on two kinds: the comparison of their values. *)
Definition Emulators_eqb (a b : Emulators) : bool :=
  String.eqb (Emulators_value a) (Emulators_value b).

Definition ALL_SERVICE_EMULATORS : list Emulators :=
  [FUNCTIONS; FIRESTORE; DATABASE; HOSTING; PUBSUB].

Definition ALL_EMULATORS : list Emulators := HUB :: ALL_SERVICE_EMULATORS.

Definition IMPORT_EXPORT_EMULATORS : list Emulators := [FIRESTORE].

(** [l.indexOf(e) >= 0]. *)
Definition includes (l : list Emulators) (e : Emulators) : bool :=
  existsb (Emulators_eqb e) l.

(** ** Options and configuration *)

(** A network address, the [{host, port}] of EmulatorInfo. *)
Record Address : Type := { host : string; port : Z }.

Definition Address_eqb (a b : Address) : bool :=
  String.eqb (host a) (host b) && Z.eqb (port a) (port b).

Inductive Collaborator : Type :=
| InstanceStart (name : Emulators)
| InstanceStop (name : Emulators)
| InstanceConnect (name : Emulators)
| ApiRequest
| GetProjectId
| PortFinder.

(** What a promise can be rejected with.  [Rejected c] is the failure of a
    collaborator whose code is not part of the controller: an engine, the
    HTTP client, the port finder. *)
Inductive Error : Type :=
| FirebaseError (message : string)
| JsError (message : string)
| TypeError (message : string)
| SyntaxError
| ENOENT (file : string)
| DuplicateStart (name : Emulators)
| Rejected (by_whom : Collaborator).

Inductive Result (A : Type) : Type :=
| Ok (a : A)
| Err (e : Error).
Arguments Ok {A} a.
Arguments Err {A} e.

(** The project configuration, a read-only [has]/[get] capability. *)
Record Config : Type := {
  has : string -> bool;
  get : string -> option string;
  projectDir : string
}.

(** The [options] object.  [address] is what Constants.getAddress resolves
    for a kind, [project] the identifier getProjectId finds, and
    [inspectFunctions], when the flag is set, what
    commandUtils.parseInspectionPort makes of it: the three helpers are
    not among the sources. *)
Record Options : Type := {
  config : Config;
  only : option string;
  import : option string;
  project : option string;
  inspectFunctions : option (Result Z);
  projectRoot : string;
  address : Emulators -> Address;
  targets : option (list Emulators)
}.

Definition set_targets (o : Options) (t : list Emulators) : Options :=
  {| config := config o; only := only o; import := import o;
     project := project o; inspectFunctions := inspectFunctions o;
     projectRoot := projectRoot o; address := address o;
     targets := Some t |}.

(** Truthiness of a value that is a string or undefined. *)
Definition truthy (s : option string) : bool :=
  match s with
  | Some t => negb (Str.isEmpty t)
  | None => false
  end.

(** ** Emulator instances *)

Module EmulatorHubArgs.
Record t : Type := { projectId : option string; host : string; port : Z }.
End EmulatorHubArgs.

Module FunctionsEmulatorArgs.
Record t : Type := {
  projectId : option string;
  functionsDir : string;
  host : string;
  port : Z;
  debugPort : option Z
}.
End FunctionsEmulatorArgs.

Module FirestoreEmulatorArgs.
Record t : Type := {
  host : string;
  port : Z;
  projectId : option string;
  auto_download : bool;
  seed_from_export : option string;
  rules : option string
}.
Definition set_seed_from_export (a : t) (p : string) : t :=
  {| host := host a; port := port a; projectId := projectId a;
     auto_download := auto_download a; seed_from_export := Some p;
     rules := rules a |}.
Definition set_rules (a : t) (r : string) : t :=
  {| host := host a; port := port a; projectId := projectId a;
     auto_download := auto_download a;
     seed_from_export := seed_from_export a; rules := Some r |}.
End FirestoreEmulatorArgs.

Module DatabaseEmulatorArgs.
Record t : Type := {
  host : string;
  port : Z;
  projectId : option string;
  auto_download : bool;
  functions_emulator_host : option string;
  functions_emulator_port : option Z;
  rules : option string
}.
Definition set_functions_emulator (a : t) (h : string) (p : Z) : t :=
  {| host := host a; port := port a; projectId := projectId a;
     auto_download := auto_download a;
     functions_emulator_host := Some h; functions_emulator_port := Some p;
     rules := rules a |}.
Definition set_rules (a : t) (r : string) : t :=
  {| host := host a; port := port a; projectId := projectId a;
     auto_download := auto_download a;
     functions_emulator_host := functions_emulator_host a;
     functions_emulator_port := functions_emulator_port a;
     rules := Some r |}.
End DatabaseEmulatorArgs.

Module HostingEmulatorArgs.
Record t : Type := { host : string; port : Z; options : Options }.
End HostingEmulatorArgs.

Module PubsubEmulatorArgs.
Record t : Type := {
  host : string;
  port : Z;
  projectId : string;
  auto_download : bool
}.
End PubsubEmulatorArgs.

(** An EmulatorInstance: one class per kind, built from its arguments. *)
Inductive EmulatorInstance : Type :=
| EmulatorHub (args : EmulatorHubArgs.t)
| FunctionsEmulator (args : FunctionsEmulatorArgs.t)
| FirestoreEmulator (args : FirestoreEmulatorArgs.t)
| DatabaseEmulator (args : DatabaseEmulatorArgs.t)
| HostingEmulator (args : HostingEmulatorArgs.t)
| PubsubEmulator (args : PubsubEmulatorArgs.t).

Definition getName (i : EmulatorInstance) : Emulators :=
  match i with
  | EmulatorHub _ => HUB
  | FunctionsEmulator _ => FUNCTIONS
  | FirestoreEmulator _ => FIRESTORE
  | DatabaseEmulator _ => DATABASE
  | HostingEmulator _ => HOSTING
  | PubsubEmulator _ => PUBSUB
  end.

Definition getInfo (i : EmulatorInstance) : Address :=
  match i with
  | EmulatorHub a =>
      {| host := EmulatorHubArgs.host a; port := EmulatorHubArgs.port a |}
  | FunctionsEmulator a =>
      {| host := FunctionsEmulatorArgs.host a;
         port := FunctionsEmulatorArgs.port a |}
  | FirestoreEmulator a =>
      {| host := FirestoreEmulatorArgs.host a;
         port := FirestoreEmulatorArgs.port a |}
  | DatabaseEmulator a =>
      {| host := DatabaseEmulatorArgs.host a;
         port := DatabaseEmulatorArgs.port a |}
  | HostingEmulator a =>
      {| host := HostingEmulatorArgs.host a;
         port := HostingEmulatorArgs.port a |}
  | PubsubEmulator a =>
      {| host := PubsubEmulatorArgs.host a;
         port := PubsubEmulatorArgs.port a |}
  end.

(** ** The world the controller runs in *)

Record FirestoreExportBody : Type := {
  database : string;
  export_directory : string;
  export_name : string
}.

(** What the controller asks of its collaborators, in the order asked. *)
Inductive Call : Type :=
| Track (action : string) (label : Emulators)
| Probe (port : Z) (host : string) (answer : Result bool)
| Start (instance : EmulatorInstance)
| Stop (instance : EmulatorInstance)
| Connect (instance : EmulatorInstance)
| Request (method resource origin : string) (data : FirestoreExportBody).

(** Modelled from the spec: the emulator engines and the HTTP client are
    external collaborators whose code is not among the sources.  Each of
    an instance's start, stop and connect operations, and the export
    request, either resolves or rejects; an engine that has started
    listens on its address and one that has stopped has released it. *)
Record Engines : Type := {
  starts : EmulatorInstance -> bool;
  stops : EmulatorInstance -> bool;
  connects : EmulatorInstance -> bool;
  exports : bool
}.

(** The process state: the registry's table, the addresses in use, the
    file store (the text of a file under its absolute path), the working
    directory, the calls made so far, the engines and the version
    [EmulatorHub.CLI_VERSION] of the running tool. *)
Record World : Type := {
  INSTANCES : list EmulatorInstance;
  listening : list Address;
  files : gmap string string;
  cwd : string;
  calls : list Call;
  engines : Engines;
  CLI_VERSION : string
}.

Definition set_INSTANCES (l : list EmulatorInstance) (w : World) : World :=
  {| INSTANCES := l; listening := listening w; files := files w;
     cwd := cwd w; calls := calls w; engines := engines w;
     CLI_VERSION := CLI_VERSION w |}.

Definition set_listening (l : list Address) (w : World) : World :=
  {| INSTANCES := INSTANCES w; listening := l; files := files w;
     cwd := cwd w; calls := calls w; engines := engines w;
     CLI_VERSION := CLI_VERSION w |}.

Definition set_files (f : gmap string string) (w : World) : World :=
  {| INSTANCES := INSTANCES w; listening := listening w; files := f;
     cwd := cwd w; calls := calls w; engines := engines w;
     CLI_VERSION := CLI_VERSION w |}.

Definition record_call (c : Call) (w : World) : World :=
  {| INSTANCES := INSTANCES w; listening := listening w; files := files w;
     cwd := cwd w; calls := calls w ++ [c]; engines := engines w;
     CLI_VERSION := CLI_VERSION w |}.

(** ** Awaited computations *)

Definition M (A : Type) : Type := World -> Result A * World.

Definition ret {A : Type} (a : A) : M A := fun w => (Ok a, w).

Definition throw {A : Type} (e : Error) : M A := fun w => (Err e, w).

Definition bind {A B : Type} (m : M A) (k : A -> M B) : M B :=
  fun w =>
    match m w with
    | (Ok a, w') => k a w'
    | (Err e, w') => (Err e, w')
    end.

Definition gets {A : Type} (f : World -> A) : M A := fun w => (Ok (f w), w).

Definition modify (f : World -> World) : M unit := fun w => (Ok tt, f w).

Definition lift {A : Type} (r : Result A) : M A := fun w => (r, w).

Declare Scope await_scope.
Delimit Scope await_scope with await.
Notation "'let!' x ':=' m 'in' k" := (bind m (fun x => k))
  (at level 10, x name, m at level 100, k at level 200) : await_scope.
Notation "m ';;;' k" := (bind m (fun _ => k))
  (at level 100, right associativity) : await_scope.
Local Open Scope await_scope.

(** [when c m]: the statement [if (c) { await m }]. *)
Definition when (c : bool) (m : M unit) : M unit := if c then m else ret tt.

(** ** Collaborators *)

(** [track(action, label)], the analytics call. *)
Definition track (action : string) (label : Emulators) : M unit :=
  modify (record_call (Track action label)).

Definition inUse (a : Address) (w : World) : bool :=
  existsb (Address_eqb a) (listening w).

(** [tcpport.check(port, host)]: rejects a number that is no port, and
    otherwise tells whether something listens there. *)
Definition tcpport_check (port : Z) (host : string) : M bool :=
  fun w =>
    let answer :=
      if (0 <=? port) && (port <=? 65535)
      then Ok (inUse {| host := host; port := port |} w)
      else Err (JsError "invalid port") in
    (answer, record_call (Probe port host answer) w).

Fixpoint firstFree (n : nat) (host : string) (port : Z) (w : World)
  : option Z :=
  match n with
  | O => None
  | S n' =>
      if inUse {| host := host; port := port |} w
      then firstFree n' host (port + 1) w
      else Some port
  end.

(** [pf.getPortPromise({host, port, stopPort})]: the first free port from
    [port] to [stopPort]. *)
Definition pf_getPortPromise (host : string) (port stopPort : Z) : M Z :=
  fun w =>
    match firstFree (Z.to_nat (stopPort - port + 1)) host port w with
    | Some p => (Ok p, w)
    | None => (Err (Rejected PortFinder), w)
    end.

Definition instance_start (i : EmulatorInstance) : M unit :=
  fun w =>
    let w1 := record_call (Start i) w in
    if starts (engines w) i
    then (Ok tt, set_listening (listening w1 ++ [getInfo i]) w1)
    else (Err (Rejected (InstanceStart (getName i))), w1).

Definition instance_stop (i : EmulatorInstance) : M unit :=
  fun w =>
    let w1 := record_call (Stop i) w in
    if stops (engines w) i
    then (Ok tt,
          set_listening
            (List.filter (fun a => negb (Address_eqb (getInfo i) a)) (listening w1))
            w1)
    else (Err (Rejected (InstanceStop (getName i))), w1).

Definition instance_connect (i : EmulatorInstance) : M unit :=
  fun w =>
    let w1 := record_call (Connect i) w in
    if connects (engines w) i then (Ok tt, w1)
    else (Err (Rejected (InstanceConnect (getName i))), w1).

(** [api.request(method, resource, {origin, json: true, data})]. *)
Definition api_request (method resource origin : string)
  (data : FirestoreExportBody) : M unit :=
  fun w =>
    let w1 := record_call (Request method resource origin data) w in
    if exports (engines w) then (Ok tt, w1)
    else (Err (Rejected ApiRequest), w1).

(** The file store is flat: a file name is resolved against the working
    directory, directories are implicit and a write does not fail. *)
Module fs.

Definition readFileSync (p : string) : M string :=
  fun w =>
    match files w !! path.resolve (cwd w) p with
    | Some text => (Ok text, w)
    | None => (Err (ENOENT p), w)
    end.

Definition existsSync (p : string) : M bool :=
  gets (fun w =>
          match files w !! path.resolve (cwd w) p with
          | Some _ => true
          | None => false
          end).

Definition writeFileSync (p data : string) : M unit :=
  modify (fun w => set_files (<[path.resolve (cwd w) p := data]> (files w)) w).

End fs.

(** Modelled from the spec: getProjectId, which is not among the sources,
    resolves the project identifier of the run; the caller that passes
    [true] accepts that there is none, for the other its absence is a
    failure. *)
Definition getProjectId (options : Options) (allowNull : bool)
  : M (option string) :=
  if negb (truthy (project options)) && negb allowNull
  then throw (Rejected GetProjectId)
  else ret (project options).

Module Constants.
Definition getAddress (e : Emulators) (options : Options) : Address :=
  address options e.
End Constants.

Module commandUtils.
Definition parseInspectionPort (r : Result Z) : M Z := lift r.
End commandUtils.

Module utils.
(** [utils.reject(message, {})]: a promise rejected with a FirebaseError. *)
Definition reject {A : Type} (message : string) : M A :=
  throw (FirebaseError message).
End utils.

(** ** The registry *)

(** Modelled from the spec: the EmulatorRegistry of [emulator/registry.ts],
    which is not among the sources.  [start] fails if an instance of the
    kind is running, and otherwise invokes the instance's start and then
    records it; [stop] invokes the stop of the instance of that kind, if
    there is one, and then removes the entry; [listRunning] gives the
    kinds registered, in registration order. *)
Module EmulatorRegistry.

Definition instanceOf (name : Emulators) (w : World)
  : option EmulatorInstance :=
  List.find (fun i => Emulators_eqb (getName i) name) (INSTANCES w).

Definition registered (name : Emulators) (w : World) : bool :=
  existsb (fun i => Emulators_eqb (getName i) name) (INSTANCES w).

Definition get (name : Emulators) : M (option EmulatorInstance) :=
  gets (instanceOf name).

Definition isRunning (name : Emulators) : M bool :=
  gets (registered name).

Definition listRunning : M (list Emulators) :=
  gets (fun w => map getName (INSTANCES w)).

Definition start (instance : EmulatorInstance) : M unit :=
  let! running := isRunning (getName instance) in
  if running then throw (DuplicateStart (getName instance))
  else
    instance_start instance ;;;
    modify (fun w => set_INSTANCES (INSTANCES w ++ [instance]) w).

Definition stop (name : Emulators) : M unit :=
  let! found := get name in
  match found with
  | None => ret tt
  | Some instance =>
      instance_stop instance ;;;
      modify (fun w =>
                set_INSTANCES
                  (List.filter (fun i => negb (Emulators_eqb (getName i) name))
                     (INSTANCES w)) w)
  end.

End EmulatorRegistry.

(** ** emulator/controller.ts *)

Definition checkPortOpen (port : Z) (host : string) : M bool :=
  fun w =>
    match tcpport_check port host w with
    | (Ok inUse, w') => (Ok (negb inUse), w')
    | (Err _, w') => (Ok false, w')
    end.

(** [tcpport.waitUntilUsedOnHost] polls every 250 ms for 30 s; while the
    controller waits nothing else runs, so the wait succeeds exactly when
    the address is in use. *)
Definition waitForPortClosed (port : Z) (host : string) : M unit :=
  fun w =>
    if inUse {| host := host; port := port |} w then (Ok tt, w)
    else (Err (FirebaseError
                 ("TIMEOUT: Port " ++ pretty port ++ " on " ++ host
                    ++ " was not active within 30000ms")), w).

(** The loop of cleanShutdown over the names listRunning returned. *)
Fixpoint stopEach (names : list Emulators) : M unit :=
  match names with
  | [] => ret tt
  | name :: rest => EmulatorRegistry.stop name ;;; stopEach rest
  end.

Definition cleanShutdown : M bool :=
  let! running := EmulatorRegistry.listRunning in
  stopEach running ;;;
  ret true.

Definition portTakenMessage (name : Emulators) : string :=
  "Could not start " ++ Emulators_value name ++ " emulator, port taken.".

Definition startEmulator (instance : EmulatorInstance) : M unit :=
  let name := getName instance in
  let info := getInfo instance in
  track "emulators:start" name ;;;
  let! portOpen := checkPortOpen (port info) (host info) in
  if negb portOpen then
    cleanShutdown ;;;
    utils.reject (portTakenMessage name)
  else
    EmulatorRegistry.start instance.

(** The values of [xs], each once, in the order of their first
    occurrence. *)
Fixpoint uniq (xs : list Emulators) : list Emulators :=
  match xs with
  | [] => []
  | x :: rest => x :: List.filter (fun y => negb (Emulators_eqb x y)) (uniq rest)
  end.

(** [_.intersection(targets, names)]. *)
Definition intersection (targets : list Emulators) (names : list string)
  : list Emulators :=
  uniq (List.filter (fun e => existsb (String.eqb (Emulators_value e)) names) targets).

Definition filterEmulatorTargets (options : Options) : list Emulators :=
  let targets :=
    List.filter (fun e =>
              has (config options) (Emulators_value e)
              || has (config options) ("emulators." ++ Emulators_value e))
      ALL_SERVICE_EMULATORS in
  match only options with
  | Some o =>
      if negb (Str.isEmpty o) then intersection targets (Str.split "," o)
      else targets
  | None => targets
  end.

Definition shouldStart (options : Options) (name : Emulators) : bool :=
  if Emulators_eqb name HUB then true
  else includes (filterEmulatorTargets options) name.

Definition METADATA_FILE_NAME : string := "metadata.json".

(** [v.firestore] and the like on a parsed value; [None] is undefined. *)
Definition getProperty (v : JSON.value) (key : string)
  : M (option JSON.value) :=
  match v with
  | JSON.Null => throw (TypeError "Cannot read property of null")
  | JSON.Object members => ret (JSON.member key members)
  | _ => ret None
  end.

Definition truthyValue (v : option JSON.value) : bool :=
  match v with
  | Some x => JSON.truthy x
  | None => false
  end.

(** The check path.join and path.resolve make of an argument. *)
Definition validateString (v : option JSON.value) : M string :=
  match v with
  | Some (JSON.Str s) => ret s
  | _ => throw (TypeError "The path argument must be of type string")
  end.

Definition validatePath (v : option string) : M string :=
  match v with
  | Some s => ret s
  | None => throw (TypeError "The path argument must be of type string")
  end.

(** Lines 157 to 166: the export metadata of the run. *)
Definition loadExportMetadata (options : Options) : M JSON.value :=
  if truthy (import options) then
    let! dir := validatePath (import options) in
    let! here := gets cwd in
    let importDir := path.resolve here dir in
    let! text := fs.readFileSync (path.join importDir METADATA_FILE_NAME) in
    match JSON.parse text with
    | Some v => ret v
    | None => throw SyntaxError
    end
  else ret (JSON.Object [("version", JSON.Str "unknown")]).

(** Lines 168 to 196. *)
Definition startFunctions (options : Options) : M unit :=
  let functionsAddr := Constants.getAddress FUNCTIONS options in
  let! projectId := getProjectId options false in
  let! source := validatePath (get (config options) "functions.source") in
  let functionsDir := path.join (projectDir (config options)) source in
  let! inspect :=
    match inspectFunctions options with
    | Some r =>
        let! p := commandUtils.parseInspectionPort r in ret (Some p)
    | None => ret None
    end in
  startEmulator
    (FunctionsEmulator
       {| FunctionsEmulatorArgs.projectId := projectId;
          FunctionsEmulatorArgs.functionsDir := functionsDir;
          FunctionsEmulatorArgs.host := host functionsAddr;
          FunctionsEmulatorArgs.port := port functionsAddr;
          FunctionsEmulatorArgs.debugPort := inspect |}).

(** Lines 208 to 218: the seed of the document database. *)
Definition seedFirestore (options : Options) (exportMetadata : JSON.value)
  (args : FirestoreEmulatorArgs.t) : M FirestoreEmulatorArgs.t :=
  let! firestore := getProperty exportMetadata "firestore" in
  if truthyValue firestore then
    let! dir := validatePath (import options) in
    let! here := gets cwd in
    let importDirAbsPath := path.resolve here dir in
    let! name := validateString firestore in
    let firestoreExportName := path.join importDirAbsPath name in
    let exportMetadataFilePath :=
      path.join importDirAbsPath
        (firestoreExportName ++ "/" ++ firestoreExportName
           ++ ".overall_export_metadata") in
    ret (FirestoreEmulatorArgs.set_seed_from_export args exportMetadataFilePath)
  else ret args.

(** The rules file of a database service: lines 220 to 234 and 263 to
    277.  [None] is a service started without rules. *)
Definition rulesFile (options : Options) (key : string) : M (option string) :=
  let rulesLocalPath := get (config options) key in
  if truthy rulesLocalPath then
    let! local := validatePath rulesLocalPath in
    let rules := path.join (projectRoot options) local in
    let! found := fs.existsSync rules in
    ret (if found then Some rules else None)
  else ret None.

(** Lines 198 to 245. *)
Definition startFirestore (options : Options) (projectId : option string)
  (exportMetadata : JSON.value) : M unit :=
  let firestoreAddr := Constants.getAddress FIRESTORE options in
  let args :=
    {| FirestoreEmulatorArgs.host := host firestoreAddr;
       FirestoreEmulatorArgs.port := port firestoreAddr;
       FirestoreEmulatorArgs.projectId := projectId;
       FirestoreEmulatorArgs.auto_download := true;
       FirestoreEmulatorArgs.seed_from_export := None;
       FirestoreEmulatorArgs.rules := None |} in
  let! args := seedFirestore options exportMetadata args in
  let! rules := rulesFile options "firestore.rules" in
  let args :=
    match rules with
    | Some r => FirestoreEmulatorArgs.set_rules args r
    | None => args
    end in
  startEmulator (FirestoreEmulator args).

(** Lines 247 to 288. *)
Definition startDatabase (options : Options) (projectId : option string)
  : M unit :=
  let databaseAddr := Constants.getAddress DATABASE options in
  let args :=
    {| DatabaseEmulatorArgs.host := host databaseAddr;
       DatabaseEmulatorArgs.port := port databaseAddr;
       DatabaseEmulatorArgs.projectId := projectId;
       DatabaseEmulatorArgs.auto_download := true;
       DatabaseEmulatorArgs.functions_emulator_host := None;
       DatabaseEmulatorArgs.functions_emulator_port := None;
       DatabaseEmulatorArgs.rules := None |} in
  let args :=
    if shouldStart options FUNCTIONS then
      let functionsAddr := Constants.getAddress FUNCTIONS options in
      DatabaseEmulatorArgs.set_functions_emulator args
        (host functionsAddr) (port functionsAddr)
    else args in
  let! rules := rulesFile options "database.rules" in
  let args :=
    match rules with
    | Some r => DatabaseEmulatorArgs.set_rules args r
    | None => args
    end in
  startEmulator (DatabaseEmulator args).

(** Lines 290 to 299. *)
Definition startHosting (options : Options) : M unit :=
  let hostingAddr := Constants.getAddress HOSTING options in
  startEmulator
    (HostingEmulator
       {| HostingEmulatorArgs.host := host hostingAddr;
          HostingEmulatorArgs.port := port hostingAddr;
          HostingEmulatorArgs.options := options |}).

Definition pubsubWithoutProject : string :=
  "Cannot start the Pub/Sub emulator without a project: run 'firebase init' or provide the --project flag".

(** Lines 301 to 316. *)
Definition startPubsub (options : Options) (projectId : option string)
  : M unit :=
  match projectId with
  | Some id =>
      if Str.isEmpty id then throw (FirebaseError pubsubWithoutProject)
      else
        let pubsubAddr := Constants.getAddress PUBSUB options in
        startEmulator
          (PubsubEmulator
             {| PubsubEmulatorArgs.host := host pubsubAddr;
                PubsubEmulatorArgs.port := port pubsubAddr;
                PubsubEmulatorArgs.projectId := id;
                PubsubEmulatorArgs.auto_download := true |})
  | None => throw (FirebaseError pubsubWithoutProject)
  end.

(** Lines 318 to 324: the loop over the names listRunning returned. *)
Fixpoint connectEach (names : list Emulators) : M unit :=
  match names with
  | [] => ret tt
  | name :: rest =>
      let! found := EmulatorRegistry.get name in
      match found with
      | Some instance => instance_connect instance
      | None => ret tt
      end ;;;
      connectEach rest
  end.

(** Lines 134 to 155: the hub, on the first free port from its
    configured one. *)
Definition startHub (options : Options) (projectId : option string)
  : M unit :=
  let hubAddr := Constants.getAddress HUB options in
  let! hubPort :=
    pf_getPortPromise (host hubAddr) (port hubAddr) (port hubAddr + 100) in
  startEmulator
    (EmulatorHub
       {| EmulatorHubArgs.projectId := projectId;
          EmulatorHubArgs.host := host hubAddr;
          EmulatorHubArgs.port := hubPort |}).

(** Lines 157 to 324: what startAll does once the hub runs. *)
Definition startServices (options : Options) (projectId : option string)
  : M unit :=
  let! exportMetadata := loadExportMetadata options in
  when (shouldStart options FUNCTIONS) (startFunctions options) ;;;
  when (shouldStart options FIRESTORE)
    (startFirestore options projectId exportMetadata) ;;;
  when (shouldStart options DATABASE) (startDatabase options projectId) ;;;
  when (shouldStart options HOSTING) (startHosting options) ;;;
  when (shouldStart options PUBSUB) (startPubsub options projectId) ;;;
  let! running := EmulatorRegistry.listRunning in
  connectEach running.

Definition startAll (options : Options) : M unit :=
  let targets := filterEmulatorTargets options in
  let options := set_targets options targets in
  let! projectId := getProjectId options true in
  startHub options projectId ;;;
  startServices options projectId.

(** ** emulator/hubExport.ts *)

Module ExportMetadata.
Record t : Type := { version : string; firestore : option string }.

(** The object JSON.stringify sees: [firestore] is a member only once it
    has been assigned. *)
Definition toJSON (m : t) : JSON.value :=
  JSON.Object
    (("version", JSON.Str (version m))
       :: match firestore m with
          | Some f => [("firestore", JSON.Str f)]
          | None => []
          end).

(** A parsed value read as ExportMetadata: its two members, when they
    are strings. *)
Definition ofJSON (v : JSON.value) : option t :=
  match v with
  | JSON.Object members =>
      match JSON.member "version" members with
      | Some (JSON.Str ver) =>
          match JSON.member "firestore" members with
          | Some (JSON.Str f) => Some {| version := ver; firestore := Some f |}
          | Some _ => None
          | None => Some {| version := ver; firestore := None |}
          end
      | _ => None
      end
  | _ => None
  end.
End ExportMetadata.

Module HubExport.

Record t : Type := { projectId : string; exportPath : string }.

Definition getExportName (e : Emulators) : Result string :=
  match e with
  | FIRESTORE => Ok "firestore_export"
  | _ => Err (JsError ("Export name not defined for " ++ Emulators_value e))
  end.

Definition shouldExport (e : Emulators) : M bool :=
  if includes IMPORT_EXPORT_EMULATORS e then EmulatorRegistry.isRunning e
  else ret false.

(** [l.filter(p)] for a predicate that reads the registry. *)
Fixpoint filterM (p : Emulators -> M bool) (l : list Emulators)
  : M (list Emulators) :=
  match l with
  | [] => ret []
  | e :: rest =>
      let! keep := p e in
      let! kept := filterM p rest in
      ret (if keep then e :: kept else kept)
  end.

Definition exportFirestore (self : t) : M unit :=
  let! found := EmulatorRegistry.get FIRESTORE in
  match found with
  | None => throw (TypeError "Cannot read property of undefined")
  | Some instance =>
      let firestoreInfo := getInfo instance in
      let firestoreHost :=
        "http://" ++ host firestoreInfo ++ ":" ++ pretty (port firestoreInfo) in
      let! name := lift (getExportName FIRESTORE) in
      let firestoreExportBody :=
        {| database := "projects/" ++ projectId self ++ "/databases/(default)";
           export_directory := exportPath self;
           export_name := name |} in
      api_request "POST"
        ("/emulator/v1/projects/" ++ projectId self ++ ":export")
        firestoreHost firestoreExportBody
  end.

Definition noneRunning : string :=
  "No running emulators support import/export.".

Definition exportAll (self : t) : M unit :=
  let! toExport := filterM shouldExport ALL_EMULATORS in
  if (length toExport =? 0)%nat then throw (FirebaseError noneRunning)
  else
    let! version := gets CLI_VERSION in
    let metadata :=
      {| ExportMetadata.version := version;
         ExportMetadata.firestore := None |} in
    let! exporting := shouldExport FIRESTORE in
    let! metadata :=
      if exporting then
        let! name := lift (getExportName FIRESTORE) in
        let metadata :=
          {| ExportMetadata.version := ExportMetadata.version metadata;
             ExportMetadata.firestore := Some name |} in
        exportFirestore self ;;;
        ret metadata
      else ret metadata in
    let metadataPath := path.join (exportPath self) METADATA_FILE_NAME in
    fs.writeFileSync metadataPath
      (JSON.stringify (ExportMetadata.toJSON metadata)).

End HubExport.

(** ** What a run shows *)

(** The calls made between two states of one run. *)
Definition newCalls (before after : World) : list Call :=
  skipn (length (calls before)) (calls after).

(** The kinds handed to startEmulator, in order: each call of
    startEmulator begins by tracking its instance's name. *)
Fixpoint tracked (l : list Call) : list Emulators :=
  match l with
  | [] => []
  | Track _ name :: rest => name :: tracked rest
  | _ :: rest => tracked rest
  end.

Definition isStart (c : Call) : bool :=
  match c with Start _ => true | _ => false end.

(** A probe that did not find its port free. *)
Definition closedProbe (c : Call) : bool :=
  match c with
  | Probe _ _ (Ok false) => false
  | Probe _ _ _ => true
  | _ => false
  end.

Definition isStop (c : Call) : bool :=
  match c with Stop _ => true | _ => false end.

Definition isPortTaken {A : Type} (r : Result A) : bool :=
  match r with
  | Err (FirebaseError message) =>
      existsb (fun name => String.eqb message (portTakenMessage name))
        ALL_EMULATORS
  | _ => false
  end.

(** The services of a run, in the order startAll takes them. *)
Definition selected (options : Options) : list Emulators :=
  List.filter (shouldStart options) [FUNCTIONS; FIRESTORE; DATABASE; HOSTING; PUBSUB].

Fixpoint isPrefix (l1 l2 : list Emulators) : bool :=
  match l1, l2 with
  | [], _ => true
  | x :: r1, y :: r2 => Emulators_eqb x y && isPrefix r1 r2
  | _ :: _, [] => false
  end.

Fixpoint hasPrefix (p s : string) : bool :=
  match p, s with
  | EmptyString, _ => true
  | String a p', String b s' => Ascii.eqb a b && hasPrefix p' s'
  | String _ _, EmptyString => false
  end.

(** The seed of the document database instance in the registry. *)
Definition firestoreSeed (w : World) : option string :=
  match EmulatorRegistry.instanceOf FIRESTORE w with
  | Some (FirestoreEmulator args) => FirestoreEmulatorArgs.seed_from_export args
  | _ => None
  end.

(** The text of a metadata object. *)
Definition metadataText (m : ExportMetadata.t) : string :=
  String "{"
    (String.append (JSON.quote "version")
       (String ":"
          (String.append (JSON.quote (ExportMetadata.version m))
             match ExportMetadata.firestore m with
             | Some f =>
                 String ","
                   (String.append (JSON.quote "firestore")
                      (String ":" (String.append (JSON.quote f) "}")))
             | None => "}"
             end))).

(** The file exportAll writes. *)
Definition metadataFile (self : HubExport.t) (w : World) : string :=
  path.resolve (cwd w) (path.join (HubExport.exportPath self) METADATA_FILE_NAME).

Definition exportRequest (self : HubExport.t) (i : EmulatorInstance) : Call :=
  Request "POST"
    ("/emulator/v1/projects/" ++ HubExport.projectId self ++ ":export")
    ("http://" ++ host (getInfo i) ++ ":" ++ pretty (port (getInfo i)))
    {| database := "projects/" ++ HubExport.projectId self ++ "/databases/(default)";
       export_directory := HubExport.exportPath self;
       export_name := "firestore_export" |}.

Definition writtenMetadata (w : World) : ExportMetadata.t :=
  {| ExportMetadata.version := CLI_VERSION w;
     ExportMetadata.firestore := Some "firestore_export" |}.

(** Whether the probe of startEmulator finds the address free. *)
Definition portOpen (a : Address) (w : World) : bool :=
  (0 <=? port a) && (port a <=? 65535) && negb (inUse a w).

(** The answer tcpport.check gives for an address. *)
Definition probeAnswer (a : Address) (w : World) : Result bool :=
  if (0 <=? port a) && (port a <=? 65535)
  then Ok (inUse a w)
  else Err (JsError "invalid port").

(** The world once startEmulator has started and registered an
    instance. *)
Definition afterStart (i : EmulatorInstance) (w : World) : World :=
  set_INSTANCES (INSTANCES w ++ [i])
    (set_listening (listening w ++ [getInfo i])
       (record_call (Start i)
          (record_call
             (Probe (port (getInfo i)) (host (getInfo i))
                (probeAnswer (getInfo i) w))
             (record_call (Track "emulators:start" (getName i)) w)))).

(** Every registered instance can be stopped. *)
Definition stoppable (w : World) : Prop :=
  forall i, In i (INSTANCES w) -> stops (engines w) i = true.

(** Every instance there may be can be stopped. *)
Definition allStop (w : World) : Prop :=
  forall i, stops (engines w) i = true.

(** A computation that reads the world and leaves it as it is. *)
Definition reader {A : Type} (m : M A) : Prop :=
  forall w, snd (m w) = w.

(** [emits m names]: a run of [m] hands to startEmulator the kinds
    [names], in that order, and when it fails it has got through a
    prefix of them. *)
Definition emits {A : Type} (m : M A) (names : list Emulators) : Prop :=
  forall w,
    exists l, calls (snd (m w)) = (calls w ++ l)%list
      /\ match fst (m w) with
         | Ok _ => tracked l = names
         | Err _ => isPrefix (tracked l) names = true
         end.

(** [rollsBack m]: in a world whose instances can all be stopped, a run
    of [m] in which a probe finds its port taken ends with the port-taken
    failure and an empty registry. *)
Definition rollsBack {A : Type} (m : M A) : Prop :=
  forall w, allStop w ->
    allStop (snd (m w))
    /\ exists l, calls (snd (m w)) = (calls w ++ l)%list
         /\ (existsb closedProbe l = false
             \/ isPortTaken (fst (m w)) = true /\ INSTANCES (snd (m w)) = []).

(** The world in which startEmulator decides: the instance has been
    tracked and its port probed. *)
Definition probed (i : EmulatorInstance) (w : World) : World :=
  record_call
    (Probe (port (getInfo i)) (host (getInfo i)) (probeAnswer (getInfo i) w))
    (record_call (Track "emulators:start" (getName i)) w).

(** The shape of the controller's computations: readers, calls of
    startEmulator and the connect loop, in sequence.  The index lists the
    kinds handed to startEmulator. *)
Inductive script : forall A : Type, M A -> list Emulators -> Prop :=
| script_reader (A : Type) (m : M A) :
    reader m -> script A m []
| script_throw (A : Type) (e : Error) (l : list Emulators) :
    script A (throw e) l
| script_start (i : EmulatorInstance) :
    script unit (startEmulator i) [getName i]
| script_connect (names : list Emulators) :
    script unit (connectEach names) []
| script_bind (A B : Type) (m : M A) (k : A -> M B) (l1 l2 : list Emulators) :
    script A m l1 -> (forall a, script B (k a) l2) ->
    script B (bind m k) (l1 ++ l2).

(** ** Concrete runs *)

Module Scenario.

Definition defaultAddress (e : Emulators) : Address :=
  {| host := "localhost";
     port := match e with
             | HUB => 4000
             | FUNCTIONS => 5001
             | FIRESTORE => 8080
             | DATABASE => 9000
             | HOSTING => 5000
             | PUBSUB => 8085
             end |}.

(** A firebase.json with the given top level keys and nothing else. *)
Definition configOf (keys : list string) : Config :=
  {| has := fun k => existsb (String.eqb k) keys;
     get := fun _ => None;
     projectDir := "/home/dev/app" |}.

Definition optionsOf (keys : list string) (only import project : option string)
  : Options :=
  {| config := configOf keys; only := only; import := import;
     project := project; inspectFunctions := None;
     projectRoot := "/home/dev/app"; address := defaultAddress;
     targets := None |}.

(** Engines that do all they are asked. *)
Definition obliging : Engines :=
  {| starts := fun _ => true; stops := fun _ => true;
     connects := fun _ => true; exports := true |}.

(** Engines of which the hub cannot be stopped. *)
Definition stuckHub : Engines :=
  {| starts := fun _ => true;
     stops := fun i => negb (Emulators_eqb (getName i) HUB);
     connects := fun _ => true; exports := true |}.

(** Engines whose export request is refused. *)
Definition refusing : Engines :=
  {| starts := fun _ => true; stops := fun _ => true;
     connects := fun _ => true; exports := false |}.

Definition fresh (e : Engines) : World :=
  {| INSTANCES := []; listening := []; files := ∅; cwd := "/home/dev/app";
     calls := []; engines := e; CLI_VERSION := "7.12.1" |}.

Definition firestoreAndHosting : Options :=
  optionsOf ["firestore"; "hosting"] None None None.

Definition onlyPubsub : Options :=
  optionsOf ["firestore"; "pubsub"] (Some "pubsub") None None.

Definition importing : Options :=
  optionsOf ["firestore"; "hosting"] None (Some "/tmp/export") None.

Definition exporter : HubExport.t :=
  {| HubExport.projectId := "demo"; HubExport.exportPath := "/tmp/export" |}.

(** A session: start, export, shut down. *)
Definition started (e : Engines) : World :=
  snd (startAll firestoreAndHosting (fresh e)).

Definition exported : World := snd (HubExport.exportAll exporter (started obliging)).

Definition stopped : World := snd (cleanShutdown exported).

(** Only the hub and the hosting service run. *)
Definition hostingOnly : World :=
  snd (startAll (optionsOf ["hosting"] None None None) (fresh obliging)).

(** Something already listens on the port of the hosting service. *)
Definition hostingBusy : World :=
  set_listening [defaultAddress HOSTING] (fresh obliging).

(** The same, with the hub and the hosting service running. *)
Definition hostingBusyToo : World :=
  set_listening
    (listening hostingOnly ++ [defaultAddress FIRESTORE]) hostingOnly.

(** The port of the hosting service is taken and the hub, once started,
    cannot be stopped. *)
Definition hostingBusyStuck : World :=
  set_listening [defaultAddress HOSTING] (fresh stuckHub).

Definition firestoreInstance : EmulatorInstance :=
  FirestoreEmulator
    {| FirestoreEmulatorArgs.host := "localhost";
       FirestoreEmulatorArgs.port := 8080;
       FirestoreEmulatorArgs.projectId := None;
       FirestoreEmulatorArgs.auto_download := true;
       FirestoreEmulatorArgs.seed_from_export := None;
       FirestoreEmulatorArgs.rules := None |}.

Definition hubInstance : EmulatorInstance :=
  EmulatorHub
    {| EmulatorHubArgs.projectId := None;
       EmulatorHubArgs.host := "localhost";
       EmulatorHubArgs.port := 4000 |}.

(** The hub runs and cannot be stopped, and the port of the document
    database is in use. *)
Definition stuck : World :=
  {| INSTANCES := [hubInstance];
     listening := [defaultAddress HUB; defaultAddress FIRESTORE];
     files := ∅; cwd := "/home/dev/app"; calls := [];
     engines := stuckHub; CLI_VERSION := "7.12.1" |}.

End Scenario.

(** ** Further notions for what the code shows *)

(** The service has an entry in firebase.json, at top level or under
    [emulators]. *)
Definition configured (options : Options) (e : Emulators) : bool :=
  has (config options) (Emulators_value e)
  || has (config options) ("emulators." ++ Emulators_value e).

(** The --only flag, when it is set and not empty, names the service. *)
Definition permitted (options : Options) (e : Emulators) : bool :=
  match only options with
  | Some o =>
      if negb (Str.isEmpty o)
      then existsb (String.eqb (Emulators_value e)) (Str.split "," o)
      else true
  | None => true
  end.

(** A start operation is invoked only on an instance of a kind that
    shouldStart selects. *)
Definition startsSelected (options : Options) (c : Call) : bool :=
  match c with
  | Start i => shouldStart options (getName i)
  | _ => true
  end.

Definition isConnect (c : Call) : bool :=
  match c with Connect _ => true | _ => false end.

(** [startsWithin m names]: the instances whose start a run of [m]
    invokes are of the kinds [names]. *)
Definition startsWithin {A : Type} (m : M A) (names : list Emulators) : Prop :=
  forall w,
    exists l, calls (snd (m w)) = (calls w ++ l)%list
      /\ forall i, In (Start i) l -> In (getName i) names.

(** [registers m names]: a run of [m] that succeeds has added instances
    of the kinds [names] to the registry, in that order, and removed
    none. *)
Definition registers {A : Type} (m : M A) (names : list Emulators) : Prop :=
  forall w,
    match fst (m w) with
    | Ok _ =>
        map getName (INSTANCES (snd (m w)))
        = (map getName (INSTANCES w) ++ names)%list
    | Err _ => True
    end.

(** [keepsFiles m]: a run of [m] leaves the file store as it is. *)
Definition keepsFiles {A : Type} (m : M A) : Prop :=
  forall w, files (snd (m w)) = files w.

(** [stopsAfterProbe m]: a run of [m] stops an instance only when one of
    its probes has found a port taken. *)
Definition stopsAfterProbe {A : Type} (m : M A) : Prop :=
  forall w,
    exists l, calls (snd (m w)) = (calls w ++ l)%list
      /\ (existsb closedProbe l = false -> existsb isStop l = false).

(** ** Further concrete runs *)

Module Cases.

(** A firebase.json with every service, and an --only flag that repeats
    a name and names a kind that is no service. *)
Definition repeating : Options :=
  Scenario.optionsOf ["functions"; "firestore"; "database"; "hosting"; "pubsub"]
    (Some "hosting,firestore,hosting,hub") None None.

(** The ports 4000 and 4001 are taken. *)
Definition hubBusy : World :=
  set_listening
    [{| host := "localhost"; port := 4000 |};
     {| host := "localhost"; port := 4001 |}]
    (Scenario.fresh Scenario.obliging).

Definition hostingInstance : EmulatorInstance :=
  HostingEmulator
    {| HostingEmulatorArgs.host := "localhost";
       HostingEmulatorArgs.port := 5000;
       HostingEmulatorArgs.options := Scenario.firestoreAndHosting |}.

(** The hub, the document database and the hosting service run; the
    document database cannot be stopped. *)
Definition stuckFirestore : World :=
  {| INSTANCES :=
       [Scenario.hubInstance; Scenario.firestoreInstance; hostingInstance];
     listening :=
       [Scenario.defaultAddress HUB; Scenario.defaultAddress FIRESTORE;
        Scenario.defaultAddress HOSTING];
     files := ∅; cwd := "/home/dev/app"; calls := [];
     engines :=
       {| starts := fun _ => true;
          stops := fun i => negb (Emulators_eqb (getName i) FIRESTORE);
          connects := fun _ => true; exports := true |};
     CLI_VERSION := "7.12.1" |}.

(** Engines of which the document database does not start. *)
Definition noFirestore : Engines :=
  {| starts := fun i => negb (Emulators_eqb (getName i) FIRESTORE);
     stops := fun _ => true; connects := fun _ => true; exports := true |}.

(** A project with a functions entry under [emulators] and no
    [functions.source]. *)
Definition functionsWithoutSource : Options :=
  Scenario.optionsOf ["emulators.functions"] None None (Some "demo").

(** A project whose rules file of the document database is named and
    exists, and whose rules file of the realtime database is named and
    missing. *)
Definition withRules : Options :=
  {| config :=
       {| has := fun k => existsb (String.eqb k) ["firestore"; "database"];
          get := fun k =>
                   if String.eqb k "firestore.rules" then Some "firestore.rules"
                   else if String.eqb k "database.rules" then Some "database.rules.json"
                   else None;
          projectDir := "/home/dev/app" |};
     only := None; import := None; project := Some "demo";
     inspectFunctions := None; projectRoot := "/home/dev/app";
     address := Scenario.defaultAddress; targets := None |}.

Definition rulesOnDisk : World :=
  set_files (<["/home/dev/app/firestore.rules" := "rules"]> ∅)
    (Scenario.fresh Scenario.obliging).

(** An export directory that already holds a metadata file and another
    file, in a session with the document database running. *)
Definition reexporting : World :=
  set_files
    (<["/tmp/export/metadata.json" := "stale"]>
       (<["/tmp/export/notes.txt" := "keep"]> ∅))
    (Scenario.started Scenario.obliging).

End Cases.

(** [avoids n m]: a run of [m] does not hand the kind [n] to
    startEmulator. *)
Definition avoids {A : Type} (n : Emulators) (m : M A) : Prop :=
  forall w,
    exists l, calls (snd (m w)) = (calls w ++ l)%list /\ ~ In n (tracked l).

(** [failsAvoiding n m]: every run of [m] fails, and does not hand the
    kind [n] to startEmulator. *)
Definition failsAvoiding {A : Type} (n : Emulators) (m : M A) : Prop :=
  forall w,
    (exists e, fst (m w) = Err e)
    /\ exists l, calls (snd (m w)) = (calls w ++ l)%list /\ ~ In n (tracked l).

(** A parsed metadata whose [firestore] property is read without a
    failure and is not truthy. *)
Definition unseeded (exportMetadata : JSON.value) : bool :=
  match exportMetadata with
  | JSON.Null => false
  | JSON.Object members => negb (truthyValue (JSON.member "firestore" members))
  | _ => true
  end.

Definition fileExists (p : string) (w : World) : bool :=
  match files w !! path.resolve (cwd w) p with
  | Some _ => true
  | None => false
  end.

(** The shape of the controller's computations once more, now with a
    condition on every instance handed to startEmulator. *)
Inductive placed (P : EmulatorInstance -> Prop) : forall A : Type, M A -> Prop :=
| placed_reader (A : Type) (m : M A) :
    reader m -> placed P A m
| placed_start (i : EmulatorInstance) :
    P i -> placed P unit (startEmulator i)
| placed_connect (names : list Emulators) :
    placed P unit (connectEach names)
| placed_after (A B : Type) (m : M A) (k : A -> M B) (Q : A -> Prop) :
    reader m -> (forall w a, fst (m w) = Ok a -> Q a) ->
    (forall a, Q a -> placed P B (k a)) -> placed P B (bind m k)
| placed_bind (A B : Type) (m : M A) (k : A -> M B) :
    placed P A m -> (forall a, placed P B (k a)) -> placed P B (bind m k).

(** The instance is on the host configured for its kind and, unless it is
    the hub, on the configured port; a hosting instance carries the
    options of the run with their targets filled in. *)
Definition configuredPlace (options : Options) (i : EmulatorInstance) : Prop :=
  host (getInfo i) = host (address options (getName i))
  /\ (getName i <> HUB -> port (getInfo i) = port (address options (getName i)))
  /\ forall a, i = HostingEmulator a ->
       targets (HostingEmulatorArgs.options a)
       = Some (filterEmulatorTargets options).

(** * Proofs *)

(** ** Strings and JSON texts *)

Lemma append_assoc (a b c : string) :
  String.append (String.append a b) c = String.append a (String.append b c).
Proof.
  induction a as [|x a IH]; [reflexivity|].
  change (String x (String.append (String.append a b) c)
          = String x (String.append a (String.append b c))).
  now rewrite IH.
Qed.

Lemma parseChars_escapeChar (c : ascii) (rest : string) :
  JSON.parseChars (String.append (JSON.escapeChar c) rest)
  = JSON.consChars (Str.char c) (JSON.parseChars rest).
Proof.
  destruct c as [[] [] [] [] [] [] [] []]; reflexivity.
Qed.

(** Reading back an escaped string gives the string, and stops behind its
    closing quote. *)
Lemma parseChars_escape (s rest : string) :
  JSON.parseChars (String.append (JSON.escape s) (String Str.dquote rest))
  = Some (s, rest).
Proof.
  induction s as [|c s IH].
  - reflexivity.
  - change (JSON.escape (String c s))
      with (String.append (JSON.escapeChar c) (JSON.escape s)).
    rewrite append_assoc, parseChars_escapeChar, IH. reflexivity.
Qed.

Lemma parseChars_quote_tail (s rest : string) :
  JSON.parseChars
    (String.append (String.append (JSON.escape s) (Str.char Str.dquote)) rest)
  = Some (s, rest).
Proof. rewrite append_assoc. apply parseChars_escape. Qed.

Lemma skipWhitespace_quote (s : string) :
  JSON.skipWhitespace (String Str.dquote s) = String Str.dquote s.
Proof. reflexivity. Qed.

Lemma parseValue_quote (fuel : nat) (s rest : string) :
  JSON.parseValue (S fuel) (String.append (JSON.quote s) rest)
  = Some (JSON.Str s, rest).
Proof.
  unfold JSON.quote.
  change (String.append (String Str.dquote ?x) rest)
    with (String Str.dquote (String.append x rest)).
  cbn [JSON.parseValue]. rewrite skipWhitespace_quote.
  change (Ascii.eqb Str.dquote "{") with false.
  change (Ascii.eqb Str.dquote "[") with false.
  change (Ascii.eqb Str.dquote Str.dquote) with true.
  cbv iota. rewrite parseChars_quote_tail. reflexivity.
Qed.

Lemma parseMembers_field (fuel : nat) (k v rest : string) :
  JSON.parseMembers (S (S fuel))
    (String.append (JSON.quote k) (String ":" (String.append (JSON.quote v) rest)))
  = match JSON.skipWhitespace rest with
    | String d r4 =>
        if Ascii.eqb d ","
        then option_map (fun '(ms, r) => ((k, JSON.Str v) :: ms, r))
               (JSON.parseMembers (S fuel) r4)
        else if Ascii.eqb d "}" then Some ([(k, JSON.Str v)], r4)
        else None
    | EmptyString => None
    end.
Proof.
  unfold JSON.quote at 1.
  change (String.append (String Str.dquote ?x) ?y)
    with (String Str.dquote (String.append x y)).
  cbn [JSON.parseMembers]. rewrite skipWhitespace_quote.
  change (Ascii.eqb Str.dquote Str.dquote) with true. cbv iota.
  rewrite parseChars_quote_tail.
  change (JSON.skipWhitespace (String ":" ?x)) with (String ":"%char x).
  change (Ascii.eqb ":" ":") with true. cbv iota.
  rewrite parseValue_quote. reflexivity.
Qed.

Lemma parseValue_object (fuel : nat) (k rest : string) :
  JSON.parseValue (S fuel) (String "{" (String.append (JSON.quote k) rest))
  = option_map (fun '(ms, r) => (JSON.Object ms, r))
      (JSON.parseMembers fuel (String.append (JSON.quote k) rest)).
Proof. reflexivity. Qed.

Lemma stringify_metadata (m : ExportMetadata.t) :
  JSON.stringify (ExportMetadata.toJSON m) = metadataText m.
Proof.
  destruct m as [v [f|]]; unfold metadataText, ExportMetadata.toJSON;
    cbn [ExportMetadata.version ExportMetadata.firestore JSON.stringify map
         Str.join fst snd];
    change (String.append "{" ?x) with (String "{"%char x);
    now rewrite !append_assoc.
Qed.

Lemma fuel_enough (text : string) :
  exists k, (2 * String.length (String "{" text) + 2 = S (S (S (S k))))%nat.
Proof.
  exists (2 * String.length text)%nat. cbn [String.length]. lia.
Qed.

(** Parsing the text written for a metadata object gives the object
    back. *)
Lemma parse_stringify_metadata (m : ExportMetadata.t) :
  JSON.parse (JSON.stringify (ExportMetadata.toJSON m))
  = Some (ExportMetadata.toJSON m).
Proof.
  rewrite stringify_metadata. unfold JSON.parse, metadataText.
  destruct (fuel_enough
              (String.append (JSON.quote "version")
                 (String ":"
                    (String.append (JSON.quote (ExportMetadata.version m))
                       match ExportMetadata.firestore m with
                       | Some f =>
                           String ","
                             (String.append (JSON.quote "firestore")
                                (String ":" (String.append (JSON.quote f) "}")))
                       | None => "}"
                       end)))) as [k ->].
  rewrite parseValue_object, parseMembers_field.
  destruct m as [v [f|]]; cbn [ExportMetadata.version ExportMetadata.firestore].
  - change (JSON.skipWhitespace (String "," ?x)) with (String ","%char x).
    change (Ascii.eqb "," ",") with true. cbv iota.
    rewrite parseMembers_field. reflexivity.
  - reflexivity.
Qed.

Lemma ofJSON_toJSON (m : ExportMetadata.t) :
  ExportMetadata.ofJSON (ExportMetadata.toJSON m) = Some m.
Proof. destruct m as [v [f|]]; reflexivity. Qed.

(** ** The export coordinator *)

Lemma Emulators_eqb_eq (a b : Emulators) : Emulators_eqb a b = true <-> a = b.
Proof. destruct a, b; split; intros H; try reflexivity; discriminate H. Qed.

Lemma Emulators_eqb_refl (a : Emulators) : Emulators_eqb a a = true.
Proof. now apply Emulators_eqb_eq. Qed.

Lemma registered_instanceOf (name : Emulators) (w : World) :
  EmulatorRegistry.registered name w = true ->
  exists i, EmulatorRegistry.instanceOf name w = Some i /\ getName i = name.
Proof.
  unfold EmulatorRegistry.registered, EmulatorRegistry.instanceOf.
  induction (INSTANCES w) as [|i l IH]; cbn [existsb List.find]; [discriminate|].
  destruct (Emulators_eqb (getName i) name) eqn:E.
  - intros _. exists i. split; [reflexivity|now apply Emulators_eqb_eq].
  - exact IH.
Qed.

Lemma instanceOf_registered (name : Emulators) (w : World) :
  EmulatorRegistry.registered name w = false ->
  EmulatorRegistry.instanceOf name w = None.
Proof.
  unfold EmulatorRegistry.registered, EmulatorRegistry.instanceOf.
  induction (INSTANCES w) as [|i l IH]; cbn [existsb List.find]; [reflexivity|].
  destruct (Emulators_eqb (getName i) name); [discriminate|exact IH].
Qed.

Lemma exportAll_idle (self : HubExport.t) (w : World) :
  EmulatorRegistry.registered FIRESTORE w = false ->
  HubExport.exportAll self w = (Err (FirebaseError HubExport.noneRunning), w).
Proof.
  intros H.
  unfold HubExport.exportAll, ALL_EMULATORS, ALL_SERVICE_EMULATORS, bind.
  cbn [HubExport.filterM]. unfold bind, HubExport.shouldExport.
  cbn [includes IMPORT_EXPORT_EMULATORS existsb Emulators_eqb Emulators_value
       String.eqb Ascii.eqb Bool.eqb orb].
  unfold ret, EmulatorRegistry.isRunning, gets. rewrite H. reflexivity.
Qed.

Lemma exportAll_running (self : HubExport.t) (w : World) (i : EmulatorInstance) :
  EmulatorRegistry.instanceOf FIRESTORE w = Some i ->
  EmulatorRegistry.registered FIRESTORE w = true ->
  HubExport.exportAll self w
  = let w1 := record_call (exportRequest self i) w in
    if exports (engines w)
    then (Ok tt,
          set_files
            (<[metadataFile self w :=
                 JSON.stringify (ExportMetadata.toJSON (writtenMetadata w))]>
               (files w)) w1)
    else (Err (Rejected ApiRequest), w1).
Proof.
  intros Hi H.
  unfold HubExport.exportAll, ALL_EMULATORS, ALL_SERVICE_EMULATORS, bind.
  cbn [HubExport.filterM]. unfold bind, HubExport.shouldExport.
  cbn [includes IMPORT_EXPORT_EMULATORS existsb Emulators_eqb Emulators_value
       String.eqb Ascii.eqb Bool.eqb orb].
  unfold ret, EmulatorRegistry.isRunning, gets. rewrite H.
  cbn [length Nat.eqb]. unfold HubExport.exportFirestore, bind,
    EmulatorRegistry.get, gets, lift. rewrite H.
  cbn [HubExport.getExportName]. cbv beta. rewrite Hi. unfold api_request.
  destruct (exports (engines w)); reflexivity.
Qed.

(** C5.  When no export-capable kind is running, exportAll fails with
    [No running emulators support import/export.] and leaves the world,
    the file store included, as it found it: no metadata file is
    written. *)
Theorem exportAll_without_exportable_service (self : HubExport.t) (w : World) :
  (forall e, In e IMPORT_EXPORT_EMULATORS ->
             EmulatorRegistry.registered e w = false) ->
  HubExport.exportAll self w
  = (Err (FirebaseError "No running emulators support import/export."), w)
  /\ files (snd (HubExport.exportAll self w)) = files w.
Proof.
  intros H. rewrite exportAll_idle by (apply H; now left). now split.
Qed.

Lemma exportAll_without_exportable_service_witness :
  HubExport.exportAll Scenario.exporter Scenario.hostingOnly
  = (Err (FirebaseError "No running emulators support import/export."),
     Scenario.hostingOnly)
  /\ files (snd (HubExport.exportAll Scenario.exporter Scenario.hostingOnly))
     = files Scenario.hostingOnly.
Proof.
  apply (exportAll_without_exportable_service Scenario.exporter
           Scenario.hostingOnly).
  intros e [<-|[]]. vm_compute. reflexivity.
Defined.



(** C9.  getExportName names an export for the document database and
    for no other kind, for which it throws; so the members of the metadata
    object that exportAll writes are the version and, under the
    [firestore] key, that one name. *)
Theorem getExportName_firestore_only (e : Emulators) (self : HubExport.t)
  (w w' : World) :
  (e = FIRESTORE /\ HubExport.getExportName e = Ok "firestore_export"
   \/ e <> FIRESTORE
      /\ HubExport.getExportName e
         = Err (JsError ("Export name not defined for " ++ Emulators_value e)))
  /\ (HubExport.exportAll self w = (Ok tt, w') ->
      exists members,
        files w' !! metadataFile self w
        = Some (JSON.stringify (JSON.Object members))
        /\ forall k v, In (k, v) members ->
             k = "version"
             \/ k = "firestore" /\ v = JSON.Str "firestore_export").
Proof.
  split.
  - destruct e; (left; split; [reflexivity|reflexivity])
                || (right; split; [discriminate|reflexivity]).
  - intros H.
    destruct (EmulatorRegistry.registered FIRESTORE w) eqn:Hr.
    + destruct (registered_instanceOf _ _ Hr) as (i & Hi & _).
      rewrite (exportAll_running self w i Hi Hr) in H. cbv zeta in H.
      destruct (exports (engines w)); [|discriminate H].
      injection H as <-.
      exists [("version", JSON.Str (CLI_VERSION w));
              ("firestore", JSON.Str "firestore_export")].
      split.
      * cbn [files set_files]. apply lookup_insert_eq.
      * intros k v [E|[E|[]]]; injection E as <- <-; [now left|now right].
    + rewrite (exportAll_idle self w Hr) in H. discriminate H.
Qed.

Lemma getExportName_firestore_only_witness :
  exists members,
    files Scenario.exported !! "/tmp/export/metadata.json"
    = Some (JSON.stringify (JSON.Object members))
    /\ forall k v, In (k, v) members ->
         k = "version" \/ k = "firestore" /\ v = JSON.Str "firestore_export".
Proof.
  refine (proj2 (getExportName_firestore_only HUB Scenario.exporter
                   (Scenario.started Scenario.obliging) Scenario.exported) _).
  vm_compute. reflexivity.
Defined.



(** ** Shutting down *)

Lemma registered_false_names (name : Emulators) (w : World) :
  EmulatorRegistry.registered name w = false ->
  forall i, In i (INSTANCES w) -> Emulators_eqb (getName i) name = false.
Proof.
  unfold EmulatorRegistry.registered. intros H i Hi.
  destruct (Emulators_eqb (getName i) name) eqn:E; [|reflexivity].
  rewrite <- H. symmetry. apply existsb_exists. now exists i.
Qed.

Lemma registered_or_not (name : Emulators) (w : World) :
  (exists i, EmulatorRegistry.instanceOf name w = Some i
             /\ In i (INSTANCES w) /\ getName i = name)
  \/ (EmulatorRegistry.instanceOf name w = None
      /\ EmulatorRegistry.registered name w = false).
Proof.
  destruct (EmulatorRegistry.registered name w) eqn:E.
  - left. destruct (registered_instanceOf _ _ E) as (i & Hi & Hn).
    exists i. repeat split; trivial.
    unfold EmulatorRegistry.instanceOf in Hi.
    now apply find_some in Hi.
  - right. split; [now apply instanceOf_registered|reflexivity].
Qed.

Lemma filter_all {A : Type} (f : A -> bool) (l : list A) :
  (forall x, In x l -> f x = true) -> List.filter f l = l.
Proof.
  induction l as [|x l IH]; intros H; [reflexivity|].
  cbn [List.filter]. rewrite (H x) by now left.
  f_equal. apply IH. intros y Hy. apply H. now right.
Qed.

Lemma filter_none {A : Type} (f : A -> bool) (l : list A) :
  (forall x, In x l -> f x = false) -> List.filter f l = [].
Proof.
  induction l as [|x l IH]; intros H; [reflexivity|].
  cbn [List.filter]. rewrite (H x) by now left.
  apply IH. intros y Hy. apply H. now right.
Qed.

Lemma Emulators_eqb_sym (a b : Emulators) :
  Emulators_eqb a b = Emulators_eqb b a.
Proof. destruct a, b; reflexivity. Qed.

Lemma filter_twice (name : Emulators) (rest : list Emulators)
  (l : list EmulatorInstance) :
  List.filter (fun i => negb (includes rest (getName i)))
    (List.filter (fun j => negb (Emulators_eqb (getName j) name)) l)
  = List.filter (fun i => negb (includes (name :: rest) (getName i))) l.
Proof.
  induction l as [|j l IH]; [reflexivity|].
  cbn [List.filter includes existsb]. rewrite (Emulators_eqb_sym (getName j) name).
  destruct (Emulators_eqb name (getName j)); cbn [negb orb List.filter].
  - exact IH.
  - unfold includes in *. destruct (existsb _ rest); cbn [negb]; now rewrite IH.
Qed.

(** What one stop does. *)
Lemma stop_cases (name : Emulators) (w : World) :
  match EmulatorRegistry.instanceOf name w with
  | None => EmulatorRegistry.stop name w = (Ok tt, w)
  | Some i =>
      EmulatorRegistry.stop name w
      = if stops (engines w) i
        then (Ok tt,
              set_INSTANCES
                (List.filter (fun j => negb (Emulators_eqb (getName j) name))
                   (INSTANCES w))
                (set_listening
                   (List.filter (fun a => negb (Address_eqb (getInfo i) a))
                      (listening w))
                   (record_call (Stop i) w)))
        else (Err (Rejected (InstanceStop (getName i))),
              record_call (Stop i) w)
  end.
Proof.
  unfold EmulatorRegistry.stop, EmulatorRegistry.get, bind, gets.
  destruct (EmulatorRegistry.instanceOf name w) as [i|]; [|reflexivity].
  unfold instance_stop, bind, modify.
  destruct (stops (engines w) i); reflexivity.
Qed.

(** The loop of cleanShutdown: it only stops instances; when it gets
    through, the instances of the names given are gone from the registry,
    and when it fails it is with the failure of an instance that would
    not stop. *)
Lemma stopEach_spec (names : list Emulators) :
  forall w,
    engines (snd (stopEach names w)) = engines w
    /\ files (snd (stopEach names w)) = files w
    /\ (exists l, calls (snd (stopEach names w)) = (calls w ++ l)%list
                  /\ forallb isStop l = true)
    /\ match fst (stopEach names w) with
       | Ok _ =>
           INSTANCES (snd (stopEach names w))
           = List.filter (fun i => negb (includes names (getName i))) (INSTANCES w)
       | Err e =>
           exists i, In i (INSTANCES w) /\ stops (engines w) i = false
                     /\ e = Rejected (InstanceStop (getName i))
       end.
Proof.
  induction names as [|name rest IH]; intros w.
  - cbn [stopEach ret fst snd includes existsb negb]. repeat split.
    + exists []. now rewrite app_nil_r.
    + symmetry. now apply filter_all.
  - cbn [stopEach]. unfold bind at 1 2 3 4 5.
    pose proof (stop_cases name w) as Hs.
    destruct (registered_or_not name w) as [(i & Hi & Hin & Hn)|(Hnone & Hreg)].
    + rewrite Hi in Hs. rewrite Hs. clear Hs.
      destruct (stops (engines w) i) eqn:Hstop.
      * match goal with |- context [stopEach rest ?w1] =>
          specialize (IH w1); set (w1' := w1) in *
        end.
        destruct IH as (He & Hf & (l & Hl & Hall) & Hr).
        repeat split.
        -- exact He.
        -- exact Hf.
        -- exists (Stop i :: l). split.
           ++ rewrite Hl. subst w1'. cbn [calls set_INSTANCES set_listening record_call].
              now rewrite <- app_assoc.
           ++ cbn [forallb isStop]. exact Hall.
        -- destruct (fst (stopEach rest w1')) as [[]|e].
           ++ rewrite Hr. subst w1'. cbn [INSTANCES set_INSTANCES].
              apply filter_twice.
           ++ destruct Hr as (j & Hj & Hsj & ->). exists j. subst w1'.
              cbn [INSTANCES set_INSTANCES engines set_listening record_call] in *.
              apply filter_In in Hj. repeat split; tauto.
      * cbn [fst snd engines files calls record_call]. repeat split.
        -- exists [Stop i]. now split.
        -- exists i. now repeat split.
    + rewrite Hnone in Hs. rewrite Hs. clear Hs.
      destruct (IH w) as (He & Hf & Hc & Hr). repeat split; trivial.
      destruct (fst (stopEach rest w)) as [[]|e]; [|exact Hr].
      rewrite Hr. apply filter_ext_in. intros j Hj.
      cbn [includes existsb].
      now rewrite (registered_false_names name w Hreg j Hj).
Qed.

Lemma cleanShutdown_unfold (w : World) :
  cleanShutdown w
  = match fst (stopEach (map getName (INSTANCES w)) w) with
    | Ok _ => (Ok true, snd (stopEach (map getName (INSTANCES w)) w))
    | Err e => (Err e, snd (stopEach (map getName (INSTANCES w)) w))
    end.
Proof.
  unfold cleanShutdown, bind, EmulatorRegistry.listRunning, gets, ret.
  destruct (stopEach (map getName (INSTANCES w)) w) as [[[]|e] w']; reflexivity.
Qed.

Lemma includes_own_name (i : EmulatorInstance) (l : list EmulatorInstance) :
  In i l -> includes (map getName l) (getName i) = true.
Proof.
  intros H. apply existsb_exists. exists (getName i). split.
  - now apply in_map.
  - apply Emulators_eqb_refl.
Qed.

(** cleanShutdown: it only stops instances and leaves the engines and the
    files alone; it returns true, with the registry empty, unless an
    instance would not stop, whose failure it then fails with. *)
Lemma cleanShutdown_spec (w : World) :
  engines (snd (cleanShutdown w)) = engines w
  /\ files (snd (cleanShutdown w)) = files w
  /\ (exists l, calls (snd (cleanShutdown w)) = (calls w ++ l)%list
                /\ forallb isStop l = true)
  /\ match fst (cleanShutdown w) with
     | Ok b => b = true /\ INSTANCES (snd (cleanShutdown w)) = []
     | Err e =>
         exists i, In i (INSTANCES w) /\ stops (engines w) i = false
                   /\ e = Rejected (InstanceStop (getName i))
     end.
Proof.
  rewrite cleanShutdown_unfold.
  destruct (stopEach_spec (map getName (INSTANCES w)) w) as (He & Hf & Hc & Hr).
  destruct (fst (stopEach (map getName (INSTANCES w)) w)) as [[]|e];
    cbn [fst snd]; repeat split; trivial.
  rewrite Hr. apply filter_none. intros i Hi.
  now rewrite includes_own_name.
Qed.

Lemma cleanShutdown_stoppable (w : World) :
  stoppable w ->
  fst (cleanShutdown w) = Ok true /\ INSTANCES (snd (cleanShutdown w)) = [].
Proof.
  intros Hs. destruct (cleanShutdown_spec w) as (_ & _ & _ & Hr).
  destruct (fst (cleanShutdown w)) as [b|e].
  - destruct Hr as [-> Hr]. now split.
  - destruct Hr as (i & Hi & Hstop & _). rewrite (Hs i Hi) in Hstop.
    discriminate Hstop.
Qed.




(** ** Starting one instance *)

Lemma checkPortOpen_eq (a : Address) (w : World) :
  checkPortOpen (port a) (host a) w
  = (Ok (portOpen a w),
     record_call (Probe (port a) (host a) (probeAnswer a w)) w).
Proof.
  destruct a as [h p].
  unfold checkPortOpen, tcpport_check, portOpen, probeAnswer. cbn [host port].
  destruct ((0 <=? p) && (p <=? 65535)); reflexivity.
Qed.

Lemma registry_start_eq (i : EmulatorInstance) (w : World) :
  EmulatorRegistry.start i w
  = if EmulatorRegistry.registered (getName i) w
    then (Err (DuplicateStart (getName i)), w)
    else if starts (engines w) i
         then (Ok tt,
               set_INSTANCES (INSTANCES w ++ [i])
                 (set_listening (listening w ++ [getInfo i])
                    (record_call (Start i) w)))
         else (Err (Rejected (InstanceStart (getName i))),
               record_call (Start i) w).
Proof.
  unfold EmulatorRegistry.start, EmulatorRegistry.isRunning, bind, gets.
  destruct (EmulatorRegistry.registered (getName i) w); [reflexivity|].
  unfold instance_start, modify. destruct (starts (engines w) i); reflexivity.
Qed.

Lemma startEmulator_eq (i : EmulatorInstance) (w : World) :
  startEmulator i w
  = if portOpen (getInfo i) w
    then EmulatorRegistry.start i (probed i w)
    else match fst (cleanShutdown (probed i w)) with
         | Ok _ => (Err (FirebaseError (portTakenMessage (getName i))),
                    snd (cleanShutdown (probed i w)))
         | Err e => (Err e, snd (cleanShutdown (probed i w)))
         end.
Proof.
  unfold startEmulator, bind at 1 2, track, modify.
  rewrite checkPortOpen_eq.
  change (portOpen (getInfo i) (record_call ?c w))
    with (portOpen (getInfo i) w).
  change (probeAnswer (getInfo i) (record_call ?c w))
    with (probeAnswer (getInfo i) w).
  fold (probed i w).
  destruct (portOpen (getInfo i) w); cbn [negb]; [reflexivity|].
  unfold bind, utils.reject, throw.
  destruct (cleanShutdown (probed i w)) as [[b|e] w']; reflexivity.
Qed.

Lemma startEmulator_open (i : EmulatorInstance) (w : World) :
  portOpen (getInfo i) w = true ->
  EmulatorRegistry.registered (getName i) w = false ->
  starts (engines w) i = true ->
  startEmulator i w = (Ok tt, afterStart i w).
Proof.
  intros Hp Hr Hs. rewrite startEmulator_eq, Hp, registry_start_eq.
  change (EmulatorRegistry.registered (getName i) (probed i w))
    with (EmulatorRegistry.registered (getName i) w).
  change (engines (probed i w)) with (engines w).
  now rewrite Hr, Hs.
Qed.

(** ** Readers *)

Lemma reader_ret {A : Type} (a : A) : reader (ret a).
Proof. intros w. reflexivity. Qed.

Lemma reader_throw {A : Type} (e : Error) : reader (@throw A e).
Proof. intros w. reflexivity. Qed.

Lemma reader_gets {A : Type} (f : World -> A) : reader (gets f).
Proof. intros w. reflexivity. Qed.

Lemma reader_lift {A : Type} (r : Result A) : reader (lift r).
Proof. intros w. reflexivity. Qed.

Lemma reader_bind {A B : Type} (m : M A) (k : A -> M B) :
  reader m -> (forall a, reader (k a)) -> reader (bind m k).
Proof.
  intros Hm Hk w. unfold bind. specialize (Hm w).
  destruct (m w) as [[a|e] w']; cbn [snd] in *; subst w'; [apply Hk|reflexivity].
Qed.

Lemma reader_pf_getPortPromise (h : string) (p q : Z) :
  reader (pf_getPortPromise h p q).
Proof.
  intros w. unfold pf_getPortPromise. now destruct (firstFree _ _ _ _).
Qed.

Lemma reader_readFileSync (p : string) : reader (fs.readFileSync p).
Proof. intros w. unfold fs.readFileSync. now destruct (_ !! _). Qed.

Create HintDb reader.
#[local] Hint Resolve reader_ret reader_throw reader_gets reader_lift
  reader_pf_getPortPromise reader_readFileSync : reader.

Ltac reader_step :=
  first
    [ apply reader_bind; [|intros ?]
    | match goal with
      | |- reader (match ?x with _ => _ end) => destruct x
      | |- reader (let! _ := _ in _) => fail 1
      end
    | solve [auto with reader] ].

Ltac reader_tac := repeat reader_step.

Lemma reader_validatePath (v : option string) : reader (validatePath v).
Proof. unfold validatePath. reader_tac. Qed.

Lemma reader_validateString (v : option JSON.value) : reader (validateString v).
Proof. unfold validateString. reader_tac. Qed.

Lemma reader_getProjectId (o : Options) (b : bool) : reader (getProjectId o b).
Proof. unfold getProjectId. reader_tac. Qed.

Lemma reader_getProperty (v : JSON.value) (k : string) : reader (getProperty v k).
Proof. unfold getProperty. reader_tac. Qed.

Lemma reader_existsSync (p : string) : reader (fs.existsSync p).
Proof. unfold fs.existsSync. reader_tac. Qed.

Lemma reader_parseInspectionPort (r : Result Z) :
  reader (commandUtils.parseInspectionPort r).
Proof. unfold commandUtils.parseInspectionPort. reader_tac. Qed.

#[local] Hint Resolve reader_validatePath reader_validateString
  reader_getProjectId reader_getProperty reader_existsSync
  reader_parseInspectionPort : reader.

Lemma reader_loadExportMetadata (o : Options) : reader (loadExportMetadata o).
Proof. unfold loadExportMetadata. reader_tac. Qed.

Lemma reader_seedFirestore (o : Options) (v : JSON.value)
  (a : FirestoreEmulatorArgs.t) : reader (seedFirestore o v a).
Proof. unfold seedFirestore. reader_tac. Qed.

Lemma reader_rulesFile (o : Options) (k : string) : reader (rulesFile o k).
Proof. unfold rulesFile. reader_tac. Qed.

#[local] Hint Resolve reader_loadExportMetadata reader_seedFirestore
  reader_rulesFile : reader.

(** ** The shape of startAll *)

Lemma script_bind_reader {A B : Type} (m : M A) (k : A -> M B)
  (l : list Emulators) :
  reader m -> (forall a, script B (k a) l) -> script B (bind m k) l.
Proof.
  intros Hm Hk. change l with ([] ++ l)%list.
  apply script_bind; [now apply script_reader|exact Hk].
Qed.

Lemma script_when (c : bool) (m : M unit) (name : Emulators) :
  script unit m [name] ->
  script unit (when c m) (if c then [name] else []).
Proof.
  intros H. destruct c; [exact H|]. apply script_reader, reader_ret.
Qed.

Ltac script_tac :=
  repeat first
    [ apply script_start
    | apply script_throw
    | apply script_connect
    | apply script_bind_reader; [solve [reader_tac]|intros ?]
    | match goal with
      | |- script _ (match ?x with _ => _ end) _ => destruct x
      end
    | apply script_reader; solve [reader_tac] ].

Lemma script_startHub (o : Options) (pid : option string) :
  script unit (startHub o pid) [HUB].
Proof. unfold startHub. script_tac. Qed.

Lemma script_startFunctions (o : Options) :
  script unit (startFunctions o) [FUNCTIONS].
Proof. unfold startFunctions. script_tac. Qed.

Lemma script_startFirestore (o : Options) (pid : option string)
  (v : JSON.value) : script unit (startFirestore o pid v) [FIRESTORE].
Proof. unfold startFirestore. script_tac. Qed.

Lemma script_startDatabase (o : Options) (pid : option string) :
  script unit (startDatabase o pid) [DATABASE].
Proof. unfold startDatabase. script_tac. Qed.

Lemma script_startHosting (o : Options) :
  script unit (startHosting o) [HOSTING].
Proof. unfold startHosting. script_tac. Qed.

Lemma script_startPubsub (o : Options) (pid : option string) :
  script unit (startPubsub o pid) [PUBSUB].
Proof. unfold startPubsub. script_tac. Qed.

Lemma selected_eq (o : Options) :
  selected o
  = ((if shouldStart o FUNCTIONS then [FUNCTIONS] else [])
       ++ (if shouldStart o FIRESTORE then [FIRESTORE] else [])
       ++ (if shouldStart o DATABASE then [DATABASE] else [])
       ++ (if shouldStart o HOSTING then [HOSTING] else [])
       ++ (if shouldStart o PUBSUB then [PUBSUB] else [])
       ++ [])%list.
Proof.
  unfold selected. cbn [List.filter].
  destruct (shouldStart o FUNCTIONS), (shouldStart o FIRESTORE),
    (shouldStart o DATABASE), (shouldStart o HOSTING), (shouldStart o PUBSUB);
    reflexivity.
Qed.

Lemma script_startServices (o : Options) (pid : option string) :
  script unit (startServices o pid) (selected o).
Proof.
  rewrite selected_eq. unfold startServices.
  apply script_bind_reader; [apply reader_loadExportMetadata|intros md].
  apply script_bind; [apply script_when, script_startFunctions|intros _].
  apply script_bind; [apply script_when, script_startFirestore|intros _].
  apply script_bind; [apply script_when, script_startDatabase|intros _].
  apply script_bind; [apply script_when, script_startHosting|intros _].
  apply script_bind; [apply script_when, script_startPubsub|intros _].
  apply script_bind_reader; [apply reader_gets|intros names].
  apply script_connect.
Qed.

(** startAll hands the hub to startEmulator, and then the selected
    services in their fixed order. *)
Lemma script_startAll (o : Options) :
  script unit (startAll o) (HUB :: selected o).
Proof.
  unfold startAll.
  apply script_bind_reader; [apply reader_getProjectId|intros pid].
  change (HUB :: selected o)
    with ([HUB] ++ selected (set_targets o (filterEmulatorTargets o)))%list.
  apply script_bind; [apply script_startHub|intros _].
  apply script_startServices.
Qed.

(** ** What a script emits *)

Lemma tracked_app (l1 l2 : list Call) :
  tracked (l1 ++ l2) = (tracked l1 ++ tracked l2)%list.
Proof.
  induction l1 as [|c l1 IH]; [reflexivity|].
  destruct c; cbn [tracked app]; now rewrite IH.
Qed.

Lemma isPrefix_refl (l : list Emulators) : isPrefix l l = true.
Proof.
  induction l as [|x l IH]; [reflexivity|].
  cbn [isPrefix]. now rewrite Emulators_eqb_refl, IH.
Qed.

Lemma isPrefix_app_r (l1 l2 l3 : list Emulators) :
  isPrefix l1 l2 = true -> isPrefix l1 (l2 ++ l3) = true.
Proof.
  revert l2. induction l1 as [|x l1 IH]; intros [|y l2] H; try reflexivity;
    try discriminate H.
  cbn [isPrefix app] in *. apply andb_true_iff in H as [H1 H2].
  now rewrite H1, IH.
Qed.

Lemma isPrefix_app_l (l1 l2 l3 : list Emulators) :
  isPrefix l2 l3 = true -> isPrefix (l1 ++ l2) (l1 ++ l3) = true.
Proof.
  intros H. induction l1 as [|x l1 IH]; [exact H|].
  cbn [isPrefix app]. now rewrite Emulators_eqb_refl, IH.
Qed.

Lemma tracked_stops (l : list Call) : forallb isStop l = true -> tracked l = [].
Proof.
  induction l as [|c l IH]; [reflexivity|].
  destruct c; cbn [forallb isStop andb tracked]; try discriminate; exact IH.
Qed.

Lemma emits_reader {A : Type} (m : M A) : reader m -> emits m [].
Proof.
  intros H w. exists []. rewrite (H w), app_nil_r. split; [reflexivity|].
  now destruct (fst (m w)).
Qed.

Lemma emits_throw {A : Type} (e : Error) (l : list Emulators) :
  emits (@throw A e) l.
Proof. intros w. exists []. cbn. now rewrite app_nil_r. Qed.

Lemma emits_bind {A B : Type} (m : M A) (k : A -> M B)
  (l1 l2 : list Emulators) :
  emits m l1 -> (forall a, emits (k a) l2) -> emits (bind m k) (l1 ++ l2).
Proof.
  intros Hm Hk w. unfold bind. destruct (Hm w) as (la & Hca & Ha).
  destruct (m w) as [[a|e] w1]; cbn [fst snd] in *.
  - destruct (Hk a w1) as (lb & Hcb & Hb). exists (la ++ lb)%list. split.
    + now rewrite Hcb, Hca, app_assoc.
    + rewrite tracked_app, Ha.
      destruct (fst (k a w1)); [now rewrite Hb|now apply isPrefix_app_l].
  - exists la. split; [exact Hca|now apply isPrefix_app_r].
Qed.

Lemma registry_start_calls (i : EmulatorInstance) (w : World) :
  exists l, calls (snd (EmulatorRegistry.start i w)) = (calls w ++ l)%list
            /\ (l = [] \/ l = [Start i]).
Proof.
  rewrite registry_start_eq.
  destruct (EmulatorRegistry.registered (getName i) w).
  - exists []. cbn. rewrite app_nil_r. auto.
  - destruct (starts (engines w) i); exists [Start i]; cbn; auto.
Qed.

Lemma emits_startEmulator (i : EmulatorInstance) :
  emits (startEmulator i) [getName i].
Proof.
  intros w. rewrite startEmulator_eq.
  set (two := [Track "emulators:start" (getName i);
               Probe (port (getInfo i)) (host (getInfo i))
                 (probeAnswer (getInfo i) w)]).
  assert (Hp : calls (probed i w) = (calls w ++ two)%list).
  { unfold probed, record_call. cbn [calls]. now rewrite <- app_assoc. }
  destruct (portOpen (getInfo i) w).
  - destruct (registry_start_calls i (probed i w)) as (l & Hl & Hcase).
    exists (two ++ l)%list. split; [now rewrite Hl, Hp, app_assoc|].
    assert (Ht : tracked (two ++ l) = [getName i])
      by (destruct Hcase as [-> | ->]; reflexivity).
    rewrite Ht. destruct (fst _); [reflexivity|apply isPrefix_refl].
  - destruct (cleanShutdown_spec (probed i w)) as (_ & _ & (l & Hl & Hall) & _).
    exists (two ++ l)%list.
    assert (Ht : tracked (two ++ l) = [getName i])
      by (rewrite tracked_app, (tracked_stops l Hall); reflexivity).
    destruct (fst (cleanShutdown (probed i w))); cbn [fst snd];
      (split; [now rewrite Hl, Hp, app_assoc|rewrite Ht; apply isPrefix_refl]).
Qed.

Lemma connectEach_cons (n : Emulators) (rest : list Emulators) (w : World) :
  connectEach (n :: rest) w
  = match EmulatorRegistry.instanceOf n w with
    | Some i =>
        if connects (engines w) i
        then connectEach rest (record_call (Connect i) w)
        else (Err (Rejected (InstanceConnect (getName i))),
              record_call (Connect i) w)
    | None => connectEach rest w
    end.
Proof.
  cbn [connectEach]. unfold bind, EmulatorRegistry.get, gets.
  destruct (EmulatorRegistry.instanceOf n w) as [i|]; [|reflexivity].
  unfold instance_connect. now destruct (connects (engines w) i).
Qed.

Lemma emits_connectEach (names : list Emulators) : emits (connectEach names) [].
Proof.
  induction names as [|n rest IH]; intros w.
  - exists []. cbn. now rewrite app_nil_r.
  - rewrite connectEach_cons.
    destruct (EmulatorRegistry.instanceOf n w) as [i|]; [|exact (IH w)].
    destruct (connects (engines w) i).
    + destruct (IH (record_call (Connect i) w)) as (l & Hl & Ht).
      exists (Connect i :: l). split; [|exact Ht].
      rewrite Hl. cbn [calls record_call]. now rewrite <- app_assoc.
    + exists [Connect i]. now split.
Qed.

Lemma script_emits (A : Type) (m : M A) (l : list Emulators) :
  script A m l -> emits m l.
Proof.
  induction 1 as [A m Hm|A e l|i|names|A B m k l1 l2 _ IHm _ IHk].
  - now apply emits_reader.
  - apply emits_throw.
  - apply emits_startEmulator.
  - apply emits_connectEach.
  - now apply emits_bind.
Qed.

(** ** Rolling back on a port conflict *)

Lemma newCalls_app (w w' : World) (l : list Call) :
  calls w' = (calls w ++ l)%list -> newCalls w w' = l.
Proof.
  intros H. unfold newCalls. rewrite H, skipn_app, skipn_all, Nat.sub_diag.
  reflexivity.
Qed.

Lemma allStop_engines (w w' : World) :
  engines w' = engines w -> allStop w -> allStop w'.
Proof. intros He H i. rewrite He. apply H. Qed.

Lemma portOpen_answer (a : Address) (w : World) :
  portOpen a w = true -> probeAnswer a w = Ok false.
Proof.
  unfold portOpen, probeAnswer.
  destruct ((0 <=? port a) && (port a <=? 65535)); [|discriminate].
  destruct (inUse a w); [discriminate|reflexivity].
Qed.

Lemma isPortTaken_message (A : Type) (name : Emulators) :
  isPortTaken (@Err A (FirebaseError (portTakenMessage name))) = true.
Proof. destruct name; reflexivity. Qed.

Lemma probed_calls (i : EmulatorInstance) (w : World) :
  calls (probed i w)
  = (calls w ++ [Track "emulators:start" (getName i);
                 Probe (port (getInfo i)) (host (getInfo i))
                   (probeAnswer (getInfo i) w)])%list.
Proof. unfold probed, record_call. cbn [calls]. now rewrite <- app_assoc. Qed.

Lemma closedProbe_stops (l : list Call) :
  forallb isStop l = true -> existsb closedProbe l = false.
Proof.
  induction l as [|c l IH]; [reflexivity|].
  destruct c; cbn [forallb isStop andb existsb closedProbe orb];
    try discriminate; exact IH.
Qed.

Lemma isStart_stops (l : list Call) :
  forallb isStop l = true -> existsb isStart l = false.
Proof.
  induction l as [|c l IH]; [reflexivity|].
  destruct c; cbn [forallb isStop andb existsb isStart orb];
    try discriminate; exact IH.
Qed.

(** startEmulator at a port that is not free: nothing is started, every
    call after the probe is a stop, and the outcome is that of the
    shutdown. *)
Lemma startEmulator_closed (i : EmulatorInstance) (w : World) :
  portOpen (getInfo i) w = false ->
  (exists e, fst (startEmulator i w) = Err e)
  /\ (exists l, newCalls w (snd (startEmulator i w))
                = Track "emulators:start" (getName i)
                    :: Probe (port (getInfo i)) (host (getInfo i))
                         (probeAnswer (getInfo i) w) :: l
                /\ forallb isStop l = true)
  /\ engines (snd (startEmulator i w)) = engines w
  /\ snd (startEmulator i w) = snd (cleanShutdown (probed i w))
  /\ (stoppable w ->
      fst (startEmulator i w)
      = Err (FirebaseError (portTakenMessage (getName i)))
      /\ INSTANCES (snd (startEmulator i w)) = []).
Proof.
  intros Hp. rewrite startEmulator_eq, Hp.
  destruct (cleanShutdown_spec (probed i w)) as (He & _ & (l & Hl & Hall) & Hr).
  assert (Hs : stoppable w ->
               fst (cleanShutdown (probed i w)) = Ok true
               /\ INSTANCES (snd (cleanShutdown (probed i w))) = [])
    by (intros Hs; now apply cleanShutdown_stoppable).
  rewrite probed_calls, <- app_assoc in Hl. apply newCalls_app in Hl.
  destruct (fst (cleanShutdown (probed i w))) as [b|e]; cbn [fst snd].
  - split; [eauto|split; [exists l; now split|split; [exact He|split]]];
      [reflexivity|].
    intros H. split; [reflexivity|apply (Hs H)].
  - split; [eauto|split; [exists l; now split|split; [exact He|split]]];
      [reflexivity|].
    intros H. destruct (Hs H) as [H1 _]. discriminate H1.
Qed.

Lemma rollsBack_reader {A : Type} (m : M A) : reader m -> rollsBack m.
Proof.
  intros H w Hw. pose proof (H w) as E. rewrite E. split; [exact Hw|].
  exists []. rewrite app_nil_r. split; [reflexivity|now left].
Qed.

Lemma rollsBack_throw {A : Type} (e : Error) : rollsBack (@throw A e).
Proof. apply rollsBack_reader, reader_throw. Qed.

Lemma rollsBack_bind {A B : Type} (m : M A) (k : A -> M B) :
  rollsBack m -> (forall a, rollsBack (k a)) -> rollsBack (bind m k).
Proof.
  intros Hm Hk w Hw. unfold bind.
  destruct (Hm w Hw) as (Hw1 & la & Hca & Ha).
  destruct (m w) as [[a|e] w1]; cbn [fst snd] in *.
  - destruct Ha as [Ha|[Ha _]]; [|discriminate Ha].
    destruct (Hk a w1 Hw1) as (Hw2 & lb & Hcb & Hb).
    split; [exact Hw2|]. exists (la ++ lb)%list. split.
    + now rewrite Hcb, Hca, app_assoc.
    + rewrite existsb_app, Ha. exact Hb.
  - split; [exact Hw1|]. exists la. split; [exact Hca|exact Ha].
Qed.

Lemma registry_start_engines (i : EmulatorInstance) (w : World) :
  engines (snd (EmulatorRegistry.start i w)) = engines w.
Proof.
  rewrite registry_start_eq.
  destruct (EmulatorRegistry.registered (getName i) w); [reflexivity|].
  now destruct (starts (engines w) i).
Qed.

Lemma rollsBack_startEmulator (i : EmulatorInstance) :
  rollsBack (startEmulator i).
Proof.
  intros w Hw. destruct (portOpen (getInfo i) w) eqn:Hp.
  - rewrite startEmulator_eq, Hp. split.
    + apply (allStop_engines (probed i w));
        [apply registry_start_engines|exact Hw].
    + destruct (registry_start_calls i (probed i w)) as (l & Hl & Hcase).
      rewrite probed_calls, <- app_assoc in Hl. eexists. split; [exact Hl|].
      left. rewrite (portOpen_answer _ _ Hp).
      destruct Hcase as [-> | ->]; reflexivity.
  - destruct (startEmulator_closed i w Hp) as (_ & (l & Hl & Hall) & He & _ & Hs).
    split; [now apply (allStop_engines w)|].
    destruct (Hs (fun j _ => Hw j)) as [Hr Hi].
    exists (newCalls w (snd (startEmulator i w))). split.
    + destruct (script_emits _ _ _ (script_start i) w) as (l' & Hl' & _).
      now rewrite (newCalls_app _ _ _ Hl').
    + right. rewrite Hr. split; [apply isPortTaken_message|exact Hi].
Qed.

Lemma rollsBack_connectEach (names : list Emulators) :
  rollsBack (connectEach names).
Proof.
  induction names as [|n rest IH]; intros w Hw.
  - split; [exact Hw|]. exists []. cbn. rewrite app_nil_r. auto.
  - rewrite connectEach_cons.
    destruct (EmulatorRegistry.instanceOf n w) as [i|]; [|exact (IH w Hw)].
    destruct (connects (engines w) i).
    + destruct (IH (record_call (Connect i) w) Hw) as (Hw' & l & Hl & Hc).
      split; [exact Hw'|]. exists (Connect i :: l). split; [|exact Hc].
      rewrite Hl. cbn [calls record_call]. now rewrite <- app_assoc.
    + split; [exact Hw|]. exists [Connect i]. split; [reflexivity|now left].
Qed.

Lemma script_rollsBack (A : Type) (m : M A) (l : list Emulators) :
  script A m l -> rollsBack m.
Proof.
  induction 1 as [A m Hm|A e l|i|names|A B m k l1 l2 _ IHm _ IHk].
  - now apply rollsBack_reader.
  - apply rollsBack_throw.
  - apply rollsBack_startEmulator.
  - apply rollsBack_connectEach.
  - now apply rollsBack_bind.
Qed.




(** ** A run without conflicts *)

Lemma getProjectId_allowNull (o : Options) (w : World) :
  getProjectId o true w = (Ok (project o), w).
Proof. unfold getProjectId. now rewrite andb_false_r. Qed.

Lemma window (p : Z) : Z.to_nat (p + 100 - p + 1) = S 100.
Proof. replace (p + 100 - p + 1) with 101 by lia. reflexivity. Qed.

Lemma portOpen_free (a : Address) (w : World) :
  portOpen a w = true -> inUse a w = false.
Proof.
  unfold portOpen. intros H. apply andb_true_iff in H as [_ H].
  now destruct (inUse a w).
Qed.

(** The port finder gives the configured port when it is free. *)
Lemma pf_free (a : Address) (w : World) :
  inUse a w = false ->
  pf_getPortPromise (host a) (port a) (port a + 100) w = (Ok (port a), w).
Proof.
  intros H. unfold pf_getPortPromise. rewrite window. cbn [firstFree].
  destruct a as [h p]. cbn [host port] in *. now rewrite H.
Qed.

Lemma portOpen_afterStart (a : Address) (i : EmulatorInstance) (w : World) :
  portOpen a (afterStart i w)
  = portOpen a w && negb (Address_eqb a (getInfo i)).
Proof.
  unfold portOpen, inUse, afterStart. cbn [listening set_INSTANCES set_listening].
  rewrite existsb_app. cbn [existsb]. rewrite orb_false_r, negb_orb.
  now rewrite andb_assoc.
Qed.

Lemma registered_afterStart (n : Emulators) (i : EmulatorInstance) (w : World) :
  EmulatorRegistry.registered n (afterStart i w)
  = EmulatorRegistry.registered n w || Emulators_eqb (getName i) n.
Proof.
  unfold EmulatorRegistry.registered, afterStart. cbn [INSTANCES set_INSTANCES].
  rewrite existsb_app. cbn [existsb]. now rewrite orb_false_r.
Qed.

Lemma rulesFile_total (o : Options) (k : string) (w : World) :
  exists r, rulesFile o k w = (Ok r, w).
Proof.
  unfold rulesFile. destruct (truthy (get (config o) k)) eqn:E.
  - destruct (get (config o) k) as [s|]; [|discriminate E].
    unfold bind, validatePath, ret, fs.existsSync, gets. eauto.
  - unfold ret. eauto.
Qed.

(** Without an import the document database is started without a seed. *)
Lemma startFirestore_unseeded (o : Options) (pid : option string) (w : World) :
  exists rules,
    startFirestore o pid (JSON.Object [("version", JSON.Str "unknown")]) w
    = startEmulator
        (FirestoreEmulator
           {| FirestoreEmulatorArgs.host := host (address o FIRESTORE);
              FirestoreEmulatorArgs.port := port (address o FIRESTORE);
              FirestoreEmulatorArgs.projectId := pid;
              FirestoreEmulatorArgs.auto_download := true;
              FirestoreEmulatorArgs.seed_from_export := None;
              FirestoreEmulatorArgs.rules := rules |}) w.
Proof.
  destruct (rulesFile_total o "firestore.rules" w) as (r & Hr).
  exists r. unfold startFirestore, bind at 1 2.
  unfold seedFirestore, bind at 1, getProperty, ret.
  cbn [JSON.member String.eqb Ascii.eqb Bool.eqb truthyValue].
  rewrite Hr. now destruct r.
Qed.

Lemma connectEach_all (names : list Emulators) :
  forall w,
    (forall i, connects (engines w) i = true) ->
    fst (connectEach names w) = Ok tt
    /\ INSTANCES (snd (connectEach names w)) = INSTANCES w
    /\ listening (snd (connectEach names w)) = listening w.
Proof.
  induction names as [|n rest IH]; intros w H; [now repeat split|].
  rewrite connectEach_cons.
  destruct (EmulatorRegistry.instanceOf n w) as [i|]; [|now apply IH].
  rewrite H. now apply (IH (record_call (Connect i) w)).
Qed.

Lemma shouldStart_targets (o : Options) (l : list Emulators) (n : Emulators) :
  filterEmulatorTargets o = l ->
  shouldStart (set_targets o (filterEmulatorTargets o)) n
  = if Emulators_eqb n HUB then true else includes l n.
Proof. intros <-. reflexivity. Qed.

Lemma bind_ok {A B : Type} (m : M A) (k : A -> M B) (w w' : World) (a : A) :
  m w = (Ok a, w') -> bind m k w = k a w'.
Proof. intros H. unfold bind. now rewrite H. Qed.

Lemma bind_ret {A B : Type} (a : A) (k : A -> M B) (w : World) :
  bind (ret a) k w = k a w.
Proof. reflexivity. Qed.

Lemma bind_gets {A B : Type} (f : World -> A) (k : A -> M B) (w : World) :
  bind (gets f) k w = k (f w) w.
Proof. reflexivity. Qed.

(** The scenario of the specification: the document database and the
    hosting service are the targets, nothing runs yet, the three ports
    are free and the engines do what they are asked. *)
Lemma startAll_firestore_hosting (o : Options) (w : World) :
  filterEmulatorTargets o = [FIRESTORE; HOSTING] ->
  truthy (import o) = false ->
  INSTANCES w = [] ->
  (forall i, starts (engines w) i = true) ->
  (forall i, connects (engines w) i = true) ->
  portOpen (address o HUB) w = true ->
  portOpen (address o FIRESTORE) w = true ->
  portOpen (address o HOSTING) w = true ->
  Address_eqb (address o FIRESTORE) (address o HUB) = false ->
  Address_eqb (address o HOSTING) (address o HUB) = false ->
  Address_eqb (address o HOSTING) (address o FIRESTORE) = false ->
  exists w',
    startAll o w = (Ok tt, w')
    /\ map getName (INSTANCES w') = [HUB; FIRESTORE; HOSTING]
    /\ listening w'
       = (listening w
            ++ [address o HUB; address o FIRESTORE; address o HOSTING])%list.
Proof.
  intros Ht Himp Hw Hs Hc Hhub Hfs Hho Hfh Hhh Hhf.
  unfold startAll.
  set (o' := set_targets o (filterEmulatorTargets o)).
  rewrite (bind_ok _ _ _ _ _ (getProjectId_allowNull o' w)).
  set (pid := project o').
  (* the hub *)
  set (hub := EmulatorHub
                {| EmulatorHubArgs.projectId := pid;
                   EmulatorHubArgs.host := host (address o HUB);
                   EmulatorHubArgs.port := port (address o HUB) |}).
  assert (Ehub : getInfo hub = address o HUB)
    by (subst hub; cbn; now destruct (address o HUB)).
  assert (Hhub' : startHub o' pid w = (Ok tt, afterStart hub w)).
  { unfold startHub. change (Constants.getAddress HUB o') with (address o HUB).
    rewrite (bind_ok _ _ _ _ _ (pf_free _ _ (portOpen_free _ _ Hhub))).
    apply startEmulator_open;
      [now rewrite Ehub|unfold EmulatorRegistry.registered; now rewrite Hw
      |apply Hs]. }
  rewrite (bind_ok _ _ _ _ _ Hhub').
  set (w1 := afterStart hub w).
  (* the services *)
  unfold startServices, loadExportMetadata.
  change (import o') with (import o). rewrite Himp. cbv iota.
  rewrite bind_ret.
  rewrite !(shouldStart_targets o _ _ Ht).
  cbn [Emulators_eqb Emulators_value String.eqb Ascii.eqb Bool.eqb includes
       existsb orb when].
  rewrite bind_ret.
  destruct (startFirestore_unseeded o' pid w1) as (rules & Hfirestore).
  match type of Hfirestore with _ = startEmulator ?i w1 => set (fsi := i) in * end.
  assert (Efs : getInfo fsi = address o FIRESTORE)
    by (subst fsi; cbn; now destruct (address o FIRESTORE)).
  rewrite (startEmulator_open fsi w1) in Hfirestore;
    [|subst w1; rewrite portOpen_afterStart, Efs, Ehub, Hfs, Hfh; reflexivity
     |subst w1; rewrite registered_afterStart;
      unfold EmulatorRegistry.registered; now rewrite Hw
     |apply Hs].
  rewrite (bind_ok _ _ _ _ _ Hfirestore).
  set (w2 := afterStart fsi w1).
  rewrite bind_ret.
  set (hoi := HostingEmulator
                {| HostingEmulatorArgs.host := host (address o HOSTING);
                   HostingEmulatorArgs.port := port (address o HOSTING);
                   HostingEmulatorArgs.options := o' |}).
  assert (Eho : getInfo hoi = address o HOSTING)
    by (subst hoi; cbn; now destruct (address o HOSTING)).
  assert (Hhosting : startHosting o' w2 = (Ok tt, afterStart hoi w2)).
  { apply (startEmulator_open hoi w2);
      [subst w2 w1; rewrite !portOpen_afterStart, Eho, Efs, Ehub, Hho, Hhh, Hhf;
       reflexivity
      |subst w2 w1; rewrite !registered_afterStart;
       unfold EmulatorRegistry.registered; now rewrite Hw
      |apply Hs]. }
  rewrite (bind_ok _ _ _ _ _ Hhosting).
  set (w3 := afterStart hoi w2).
  rewrite bind_ret. unfold EmulatorRegistry.listRunning. rewrite bind_gets.
  destruct (connectEach_all (map getName (INSTANCES w3)) w3 Hc) as (Hok & Hi & Hl).
  exists (snd (connectEach (map getName (INSTANCES w3)) w3)).
  split; [|split].
  - rewrite <- Hok. now destruct (connectEach _ w3).
  - rewrite Hi. subst w3 w2 w1. unfold afterStart.
    cbn [INSTANCES set_INSTANCES]. now rewrite Hw.
  - rewrite Hl. subst w3 w2 w1. unfold afterStart.
    cbn [listening set_INSTANCES set_listening record_call].
    now rewrite Ehub, Efs, Eho, <- !app_assoc.
Qed.



(** ** The hub *)

Lemma startEmulator_calls (i : EmulatorInstance) (w : World) :
  exists l,
    calls (snd (startEmulator i w))
    = (calls w ++ Track "emulators:start" (getName i)
         :: Probe (port (getInfo i)) (host (getInfo i))
              (probeAnswer (getInfo i) w) :: l)%list
    /\ (portOpen (getInfo i) w = true ->
        EmulatorRegistry.registered (getName i) w = false -> l = [Start i]).
Proof.
  rewrite startEmulator_eq. destruct (portOpen (getInfo i) w).
  - rewrite registry_start_eq.
    change (EmulatorRegistry.registered (getName i) (probed i w))
      with (EmulatorRegistry.registered (getName i) w).
    destruct (EmulatorRegistry.registered (getName i) w).
    + exists []. cbn [snd]. rewrite probed_calls. split; [reflexivity|discriminate].
    + exists [Start i].
      destruct (starts (engines (probed i w)) i);
        cbn [snd calls set_INSTANCES set_listening record_call];
        fold (probed i w); rewrite probed_calls, <- app_assoc; now split.
  - destruct (cleanShutdown_spec (probed i w)) as (_ & _ & (l & Hl & _) & _).
    exists l. split; [|discriminate].
    rewrite probed_calls, <- app_assoc in Hl.
    now destruct (fst (cleanShutdown (probed i w))).
Qed.



(** ** Failures that leave the cluster running *)

(** C1 fails on the code.  With the pub/sub service selected and no
    project, startAll fails with the precondition failure of the pub/sub
    service while the hub stays registered and listening: nothing was
    stopped.  Likewise when the metadata file of the import directory is
    missing. *)
Theorem startAll_precondition_failure_leaves_hub :
  fst (startAll Scenario.onlyPubsub (Scenario.fresh Scenario.obliging))
  = Err (FirebaseError
           "Cannot start the Pub/Sub emulator without a project: run 'firebase init' or provide the --project flag")
  /\ map getName
       (INSTANCES (snd (startAll Scenario.onlyPubsub
                          (Scenario.fresh Scenario.obliging)))) = [HUB]
  /\ listening (snd (startAll Scenario.onlyPubsub
                       (Scenario.fresh Scenario.obliging)))
     = [Scenario.defaultAddress HUB]
  /\ existsb isStop
       (calls (snd (startAll Scenario.onlyPubsub
                      (Scenario.fresh Scenario.obliging)))) = false
  /\ fst (startAll Scenario.importing (Scenario.fresh Scenario.obliging))
     = Err (ENOENT "/tmp/export/metadata.json")
  /\ map getName
       (INSTANCES (snd (startAll Scenario.importing
                          (Scenario.fresh Scenario.obliging)))) = [HUB]
  /\ existsb isStop
       (calls (snd (startAll Scenario.importing
                      (Scenario.fresh Scenario.obliging)))) = false.
Proof. repeat split; vm_compute; reflexivity. Qed.

(** C2 fails on the code.  After an export to /tmp/export, whose
    metadata records [firestore_export], a start that imports /tmp/export
    gives the document database a seed path in which the import
    directory occurs three times: it is not the metadata file of the
    export, /tmp/export/firestore_export/firestore_export.overall_export_metadata,
    and it does not lie in the exported directory. *)
Theorem startAll_import_seed_path :
  files Scenario.stopped !! "/tmp/export/metadata.json"
  = Some (JSON.stringify
            (ExportMetadata.toJSON
               {| ExportMetadata.version := "7.12.1";
                  ExportMetadata.firestore := Some "firestore_export" |}))
  /\ fst (startAll Scenario.importing Scenario.stopped) = Ok tt
  /\ firestoreSeed (snd (startAll Scenario.importing Scenario.stopped))
     = Some "/tmp/export/tmp/export/firestore_export/tmp/export/firestore_export.overall_export_metadata"
  /\ firestoreSeed (snd (startAll Scenario.importing Scenario.stopped))
     <> Some "/tmp/export/firestore_export/firestore_export.overall_export_metadata"
  /\ hasPrefix (path.join "/tmp/export" "firestore_export")
       "/tmp/export/tmp/export/firestore_export/tmp/export/firestore_export.overall_export_metadata"
     = false.
Proof. repeat split; try (vm_compute; reflexivity). vm_compute. discriminate. Qed.

(** * What else the code shows *)

(** ** Probing a port *)

(** X1.  checkPortOpen never rejects: it answers true exactly when the
    number is a port and nothing listens on the address, and false also
    when the probe itself fails; it leaves the registry, the listeners and
    the files alone. *)
Theorem checkPortOpen_never_rejects (p : Z) (h : string) (w : World) :
  exists b,
    fst (checkPortOpen p h w) = Ok b
    /\ (b = true <->
        0 <= p <= 65535 /\ inUse {| host := h; port := p |} w = false)
    /\ INSTANCES (snd (checkPortOpen p h w)) = INSTANCES w
    /\ listening (snd (checkPortOpen p h w)) = listening w
    /\ files (snd (checkPortOpen p h w)) = files w.
Proof.
  pose proof (checkPortOpen_eq {| host := h; port := p |} w) as E.
  cbn [host port] in E. rewrite E. cbn [fst snd].
  exists (portOpen {| host := h; port := p |} w).
  split; [reflexivity|split; [|now repeat split]].
  unfold portOpen. cbn [port].
  rewrite !andb_true_iff, negb_true_iff, !Z.leb_le. tauto.
Qed.

(** ** Choosing the targets *)

Lemma In_uniq (x : Emulators) (l : list Emulators) : In x (uniq l) <-> In x l.
Proof.
  induction l as [|y l IH]; [reflexivity|].
  cbn [uniq In]. rewrite filter_In, IH, negb_true_iff.
  destruct (Emulators_eqb y x) eqn:E.
  - apply Emulators_eqb_eq in E. subst y. tauto.
  - split; [tauto|]. intros [H|H]; [now left|right; now split].
Qed.

Lemma uniq_NoDup (l : list Emulators) : List.NoDup l -> uniq l = l.
Proof.
  induction 1 as [|x l Hx Hl IH]; [reflexivity|].
  cbn [uniq]. rewrite IH. f_equal. apply filter_all. intros y Hy.
  apply negb_true_iff. destruct (Emulators_eqb x y) eqn:E; [|reflexivity].
  apply Emulators_eqb_eq in E. subst y. contradiction.
Qed.

Lemma NoDup_services : List.NoDup ALL_SERVICE_EMULATORS.
Proof.
  unfold ALL_SERVICE_EMULATORS.
  repeat (constructor; [cbn [In]; intuition discriminate|]). constructor.
Qed.

Lemma filter_filter {A : Type} (f g : A -> bool) (l : list A) :
  List.filter f (List.filter g l) = List.filter (fun x => g x && f x) l.
Proof.
  induction l as [|x l IH]; [reflexivity|].
  cbn [List.filter]. destruct (g x); cbn [List.filter andb]; now rewrite IH.
Qed.

Lemma filterEmulatorTargets_filter (options : Options) :
  filterEmulatorTargets options
  = List.filter (fun e => configured options e && permitted options e)
      ALL_SERVICE_EMULATORS.
Proof.
  unfold filterEmulatorTargets, permitted, configured.
  destruct (only options) as [o|].
  - destruct (Str.isEmpty o); cbn [negb].
    + apply filter_ext. intros e. now rewrite andb_true_r.
    + unfold intersection. rewrite filter_filter.
      apply uniq_NoDup, List.NoDup_filter, NoDup_services.
  - apply filter_ext. intros e. now rewrite andb_true_r.
Qed.

(** X2.  The targets are the services, in their fixed order, that are
    configured and that the --only flag permits: the order of the names
    after --only and their repetition make no difference, an empty --only
    is no filter, no target occurs twice and the hub is never one. *)
Theorem filterEmulatorTargets_eq (options : Options) :
  filterEmulatorTargets options
  = List.filter (fun e => configured options e && permitted options e)
      [FUNCTIONS; FIRESTORE; DATABASE; HOSTING; PUBSUB]
  /\ List.NoDup (filterEmulatorTargets options)
  /\ ~ In HUB (filterEmulatorTargets options).
Proof.
  pose proof (filterEmulatorTargets_filter options) as E.
  split; [exact E|split].
  - rewrite E. apply List.NoDup_filter, NoDup_services.
  - rewrite E, filter_In. unfold ALL_SERVICE_EMULATORS. cbn [In].
    intuition discriminate.
Qed.

(** X3.  shouldStart selects the hub always, and a service exactly when
    it is configured and permitted by --only; so a service that is not
    configured is not selected even when --only names it. *)
Theorem shouldStart_iff (options : Options) (e : Emulators) :
  (shouldStart options e = true <->
   e = HUB \/ configured options e = true /\ permitted options e = true)
  /\ (e <> HUB -> configured options e = false -> shouldStart options e = false).
Proof.
  assert (H : shouldStart options e = true <->
              e = HUB \/ configured options e = true /\ permitted options e = true).
  { unfold shouldStart, includes.
    destruct (Emulators_eqb e HUB) eqn:Eh.
    - apply Emulators_eqb_eq in Eh. tauto.
    - rewrite (filterEmulatorTargets_filter options).
      rewrite existsb_exists. split.
      + intros (x & Hx & Hex). apply Emulators_eqb_eq in Hex. subst x.
        apply filter_In in Hx as [_ Hx]. apply andb_true_iff in Hx. now right.
      + intros [->|[Hc Hp]]; [discriminate Eh|].
        exists e. split; [|apply Emulators_eqb_refl].
        apply filter_In. split; [|now rewrite Hc, Hp].
        unfold ALL_SERVICE_EMULATORS.
        destruct e; cbn [In]; try discriminate Eh; auto 6. }
  split; [exact H|].
  intros Hne Hc. apply not_true_is_false. intros E.
  apply H in E as [->|[Hc' _]]; [now contradict Hne|congruence].
Qed.

Lemma shouldStart_iff_witness :
  shouldStart
    (Scenario.optionsOf ["firestore"] (Some "hosting,firestore") None None)
    HOSTING = false.
Proof.
  apply (proj2 (shouldStart_iff
                  (Scenario.optionsOf ["firestore"] (Some "hosting,firestore")
                     None None) HOSTING));
    [discriminate|vm_compute; reflexivity].
Defined.

Lemma filterEmulatorTargets_eq_witness :
  filterEmulatorTargets Cases.repeating = [FIRESTORE; HOSTING].
Proof.
  rewrite (proj1 (filterEmulatorTargets_eq Cases.repeating)). reflexivity.
Defined.

(** ** More on shutting down *)

Lemma instanceOf_head (i : EmulatorInstance) (rest : list EmulatorInstance)
  (w : World) :
  INSTANCES w = i :: rest ->
  EmulatorRegistry.instanceOf (getName i) w = Some i.
Proof.
  intros H. unfold EmulatorRegistry.instanceOf. rewrite H. cbn [List.find].
  now rewrite Emulators_eqb_refl.
Qed.

Lemma filter_other_names (i : EmulatorInstance) (rest : list EmulatorInstance) :
  ~ In (getName i) (map getName rest) ->
  List.filter (fun j => negb (Emulators_eqb (getName j) (getName i))) (i :: rest)
  = rest.
Proof.
  intros H. cbn [List.filter]. rewrite Emulators_eqb_refl. cbn [negb].
  apply filter_all. intros j Hj. apply negb_true_iff.
  destruct (Emulators_eqb (getName j) (getName i)) eqn:E; [|reflexivity].
  apply Emulators_eqb_eq in E. exfalso. apply H. rewrite <- E. now apply in_map.
Qed.

(** The loop of cleanShutdown gets through a prefix of the registry whose
    instances stop: each is stopped once, in registration order, and what
    is left of the registry is the rest. *)
Lemma stopEach_prefix (l1 : list EmulatorInstance) :
  forall (rest : list EmulatorInstance) (more : list Emulators) (w : World),
    INSTANCES w = (l1 ++ rest)%list ->
    List.NoDup (map getName (l1 ++ rest)) ->
    (forall j, In j l1 -> stops (engines w) j = true) ->
    exists w',
      stopEach (map getName l1 ++ more) w = stopEach more w'
      /\ INSTANCES w' = rest
      /\ calls w' = (calls w ++ map Stop l1)%list
      /\ engines w' = engines w
      /\ files w' = files w.
Proof.
  induction l1 as [|i l1 IH]; intros rest more w Hi Hnd Hs.
  - exists w. cbn [map app]. rewrite app_nil_r. now repeat split.
  - cbn [map app] in *. inversion Hnd as [|? ? Hnot Hnd']; subst.
    cbn [stopEach]. unfold bind at 1.
    pose proof (stop_cases (getName i) w) as Hstop.
    rewrite (instanceOf_head i (l1 ++ rest) w Hi) in Hstop.
    rewrite (Hs i (or_introl eq_refl)) in Hstop. rewrite Hstop. clear Hstop.
    rewrite Hi, (filter_other_names i (l1 ++ rest) Hnot).
    match goal with |- context [stopEach _ ?w1] => set (w1' := w1) end.
    destruct (IH rest more w1') as (w' & Hrun & Hinst & Hcalls & Heng & Hfiles).
    + reflexivity.
    + exact Hnd'.
    + intros j Hj. apply Hs. now right.
    + exists w'. split; [exact Hrun|]. split; [exact Hinst|].
      split; [|now split].
      rewrite Hcalls. subst w1'.
      cbn [calls set_INSTANCES set_listening record_call].
      now rewrite <- app_assoc.
Qed.

(** X4.  With one instance per kind in the registry and every instance
    stopping when asked, cleanShutdown stops each registered instance
    exactly once, in registration order (not in reverse), and does nothing
    else. *)
Theorem cleanShutdown_in_registration_order (w : World) :
  List.NoDup (map getName (INSTANCES w)) ->
  stoppable w ->
  fst (cleanShutdown w) = Ok true
  /\ newCalls w (snd (cleanShutdown w)) = map Stop (INSTANCES w)
  /\ INSTANCES (snd (cleanShutdown w)) = []
  /\ files (snd (cleanShutdown w)) = files w.
Proof.
  intros Hnd Hs.
  destruct (stopEach_prefix (INSTANCES w) [] [] w) as (w' & Hrun & Hi & Hc & _ & Hf).
  - now rewrite app_nil_r.
  - now rewrite app_nil_r.
  - exact Hs.
  - rewrite app_nil_r in Hrun. rewrite cleanShutdown_unfold, Hrun.
    cbn [stopEach ret fst snd]. repeat split; trivial.
    now apply newCalls_app.
Qed.

Lemma cleanShutdown_in_registration_order_witness :
  newCalls Scenario.exported (snd (cleanShutdown Scenario.exported))
  = map Stop (INSTANCES Scenario.exported).
Proof.
  apply (cleanShutdown_in_registration_order Scenario.exported).
  - vm_compute. repeat (constructor; [cbn [In]; intuition discriminate|]).
    constructor.
  - intros i _. reflexivity.
Defined.

(** X5.  cleanShutdown gives up at the first instance that does not stop:
    the instances registered before it have been stopped and removed, the
    failure is that instance's, and it and every instance registered after
    it stay in the registry, not asked to stop. *)
Theorem cleanShutdown_gives_up (w : World) (before after : list EmulatorInstance)
  (i : EmulatorInstance) :
  INSTANCES w = (before ++ i :: after)%list ->
  List.NoDup (map getName (INSTANCES w)) ->
  (forall j, In j before -> stops (engines w) j = true) ->
  stops (engines w) i = false ->
  fst (cleanShutdown w) = Err (Rejected (InstanceStop (getName i)))
  /\ INSTANCES (snd (cleanShutdown w)) = i :: after
  /\ newCalls w (snd (cleanShutdown w)) = (map Stop before ++ [Stop i])%list.
Proof.
  intros Hi Hnd Hs Hstop.
  destruct (stopEach_prefix before (i :: after) (map getName (i :: after)) w)
    as (w' & Hrun & Hi' & Hc & He & _).
  - exact Hi.
  - now rewrite <- Hi.
  - exact Hs.
  - rewrite cleanShutdown_unfold, Hi, map_app, Hrun.
    cbn [map stopEach]. unfold bind.
    pose proof (stop_cases (getName i) w') as Hcase.
    rewrite (instanceOf_head i after w' Hi'), He, Hstop in Hcase.
    rewrite Hcase. cbn [fst snd INSTANCES record_call calls].
    repeat split; trivial.
    apply newCalls_app. unfold record_call. cbn [calls].
    now rewrite Hc, <- app_assoc.
Qed.

Lemma cleanShutdown_gives_up_witness :
  fst (cleanShutdown Cases.stuckFirestore)
  = Err (Rejected (InstanceStop FIRESTORE))
  /\ INSTANCES (snd (cleanShutdown Cases.stuckFirestore))
     = [Scenario.firestoreInstance; Cases.hostingInstance]
  /\ newCalls Cases.stuckFirestore (snd (cleanShutdown Cases.stuckFirestore))
     = [Stop Scenario.hubInstance; Stop Scenario.firestoreInstance].
Proof.
  apply (cleanShutdown_gives_up Cases.stuckFirestore [Scenario.hubInstance]
           [Cases.hostingInstance] Scenario.firestoreInstance).
  - reflexivity.
  - cbn. repeat (constructor; [cbn [In]; intuition discriminate|]). constructor.
  - intros j [<-|[]]. reflexivity.
  - reflexivity.
Defined.

(** X6.  After a cleanShutdown that got through, a second cleanShutdown
    returns true and changes nothing. *)
Theorem cleanShutdown_twice (w : World) :
  stoppable w ->
  cleanShutdown (snd (cleanShutdown w)) = (Ok true, snd (cleanShutdown w)).
Proof.
  intros Hs. destruct (cleanShutdown_stoppable w Hs) as [_ Hi].
  now rewrite (cleanShutdown_unfold (snd (cleanShutdown w))), Hi.
Qed.

Lemma cleanShutdown_twice_witness :
  cleanShutdown Scenario.stopped = (Ok true, Scenario.stopped).
Proof.
  apply (cleanShutdown_twice Scenario.exported). intros i _. reflexivity.
Defined.

(** ** More on starting one instance *)

Lemma Address_eqb_refl (a : Address) : Address_eqb a a = true.
Proof.
  unfold Address_eqb. now rewrite String.eqb_refl, Z.eqb_refl.
Qed.

(** What a successful startEmulator has found and left. *)
Lemma startEmulator_ok (i : EmulatorInstance) (w : World) :
  fst (startEmulator i w) = Ok tt ->
  (portOpen (getInfo i) w = true
   /\ EmulatorRegistry.registered (getName i) w = false
   /\ starts (engines w) i = true)
  /\ snd (startEmulator i w) = afterStart i w.
Proof.
  intros Hok.
  assert (H : portOpen (getInfo i) w = true
              /\ EmulatorRegistry.registered (getName i) w = false
              /\ starts (engines w) i = true).
  { revert Hok. rewrite startEmulator_eq. destruct (portOpen (getInfo i) w).
    - rewrite registry_start_eq.
      change (EmulatorRegistry.registered (getName i) (probed i w))
        with (EmulatorRegistry.registered (getName i) w).
      change (engines (probed i w)) with (engines w).
      destruct (EmulatorRegistry.registered (getName i) w); [discriminate|].
      destruct (starts (engines w) i); [auto|discriminate].
    - destruct (fst (cleanShutdown (probed i w))); discriminate. }
  split; [exact H|]. destruct H as (Hp & Hr & Hs).
  now rewrite (startEmulator_open i w Hp Hr Hs).
Qed.

(** X7.  startEmulator succeeds exactly when the port passes the probe,
    no instance of the kind is registered and the engine starts; the
    instance is then the last entry of the registry, the entries before it
    are untouched, its address is in use and nothing has been stopped. *)
Theorem startEmulator_succeeds_iff (i : EmulatorInstance) (w : World) :
  (fst (startEmulator i w) = Ok tt <->
   portOpen (getInfo i) w = true
   /\ EmulatorRegistry.registered (getName i) w = false
   /\ starts (engines w) i = true)
  /\ (fst (startEmulator i w) = Ok tt ->
      INSTANCES (snd (startEmulator i w)) = (INSTANCES w ++ [i])%list
      /\ inUse (getInfo i) (snd (startEmulator i w)) = true
      /\ portOpen (getInfo i) (snd (startEmulator i w)) = false
      /\ existsb isStop (newCalls w (snd (startEmulator i w))) = false).
Proof.
  split.
  - split; [intros H; apply (startEmulator_ok i w H)|].
    intros (Hp & Hr & Hs). now rewrite (startEmulator_open i w Hp Hr Hs).
  - intros Hok. destruct (startEmulator_ok i w Hok) as (_ & ->).
    assert (Hin : inUse (getInfo i) (afterStart i w) = true).
    { unfold inUse, afterStart. cbn [listening set_INSTANCES set_listening].
      rewrite existsb_app. cbn [existsb].
      now rewrite Address_eqb_refl, orb_true_r. }
    split; [reflexivity|split; [exact Hin|split]].
    + unfold portOpen. rewrite Hin. cbn [negb]. apply andb_false_r.
    + unfold newCalls, afterStart, record_call.
      cbn [calls set_INSTANCES set_listening].
      rewrite <- !app_assoc, skipn_app, skipn_all, Nat.sub_diag. reflexivity.
Qed.

Lemma startEmulator_succeeds_iff_witness :
  fst (startEmulator Scenario.firestoreInstance Scenario.hostingOnly) = Ok tt.
Proof.
  apply (proj1 (startEmulator_succeeds_iff Scenario.firestoreInstance
                  Scenario.hostingOnly)).
  repeat split; vm_compute; reflexivity.
Defined.

(** X8.  When the port passes the probe and startEmulator fails all the
    same, because an instance of the kind is registered already or the
    engine does not start, the failure is passed on as it is: the
    registry and the listeners are as they were and nothing has been
    stopped. *)
Theorem startEmulator_failed_start (i : EmulatorInstance) (w : World) (e : Error) :
  portOpen (getInfo i) w = true ->
  fst (startEmulator i w) = Err e ->
  (e = DuplicateStart (getName i) /\ EmulatorRegistry.registered (getName i) w = true
   \/ e = Rejected (InstanceStart (getName i)) /\ starts (engines w) i = false)
  /\ INSTANCES (snd (startEmulator i w)) = INSTANCES w
  /\ listening (snd (startEmulator i w)) = listening w
  /\ existsb isStop (newCalls w (snd (startEmulator i w))) = false.
Proof.
  intros Hp. rewrite startEmulator_eq, Hp, registry_start_eq.
  change (EmulatorRegistry.registered (getName i) (probed i w))
    with (EmulatorRegistry.registered (getName i) w).
  change (engines (probed i w)) with (engines w).
  assert (N2 : forall l, existsb isStop l = false ->
                 forall w', calls w' = (calls (probed i w) ++ l)%list ->
                   existsb isStop (newCalls w w') = false).
  { intros l Hl w' Hc. rewrite probed_calls, <- app_assoc in Hc.
    rewrite (newCalls_app _ _ _ Hc). exact Hl. }
  destruct (EmulatorRegistry.registered (getName i) w) eqn:Hr.
  - cbn [fst snd]. intros [= <-]. repeat split; auto.
    apply (N2 []); [reflexivity|now rewrite app_nil_r].
  - destruct (starts (engines w) i) eqn:Hs; cbn [fst snd]; [discriminate|].
    intros [= <-]. repeat split; auto.
    apply (N2 [Start i]); reflexivity.
Qed.

Lemma startEmulator_failed_start_witness :
  INSTANCES (snd (startEmulator Scenario.firestoreInstance
                    (set_INSTANCES (INSTANCES Scenario.hostingOnly)
                       (set_listening (listening Scenario.hostingOnly)
                          (Scenario.fresh Cases.noFirestore)))))
  = INSTANCES Scenario.hostingOnly.
Proof.
  refine (proj1 (proj2 (startEmulator_failed_start Scenario.firestoreInstance
                          (set_INSTANCES (INSTANCES Scenario.hostingOnly)
                             (set_listening (listening Scenario.hostingOnly)
                                (Scenario.fresh Cases.noFirestore)))
                          (Rejected (InstanceStart FIRESTORE)) _ _)));
    vm_compute; reflexivity.
Defined.

(** ** More on startAll *)

(** The calls of startEmulator: the tracking, the probe, and then either
    at most the start of the instance, or stops. *)
Lemma startEmulator_trace (i : EmulatorInstance) (w : World) :
  exists l,
    calls (snd (startEmulator i w))
    = (calls w ++ Track "emulators:start" (getName i)
         :: Probe (port (getInfo i)) (host (getInfo i))
              (probeAnswer (getInfo i) w) :: l)%list
    /\ (portOpen (getInfo i) w = true /\ (l = [] \/ l = [Start i])
        \/ portOpen (getInfo i) w = false /\ forallb isStop l = true).
Proof.
  rewrite startEmulator_eq. destruct (portOpen (getInfo i) w).
  - destruct (registry_start_calls i (probed i w)) as (l & Hl & Hcase).
    exists l. rewrite probed_calls, <- app_assoc in Hl. split; [exact Hl|auto].
  - destruct (cleanShutdown_spec (probed i w)) as (_ & _ & (l & Hl & Hall) & _).
    exists l. rewrite probed_calls, <- app_assoc in Hl.
    split; [now destruct (fst (cleanShutdown (probed i w)))|auto].
Qed.

Lemma startEmulator_files (i : EmulatorInstance) (w : World) :
  files (snd (startEmulator i w)) = files w.
Proof.
  rewrite startEmulator_eq. destruct (portOpen (getInfo i) w).
  - rewrite registry_start_eq.
    destruct (EmulatorRegistry.registered _ _); [reflexivity|].
    now destruct (starts _ _).
  - destruct (cleanShutdown_spec (probed i w)) as (_ & Hf & _).
    now destruct (fst (cleanShutdown (probed i w))).
Qed.

(** The connect loop only connects. *)
Lemma connectEach_frame (names : list Emulators) :
  forall w,
    INSTANCES (snd (connectEach names w)) = INSTANCES w
    /\ files (snd (connectEach names w)) = files w
    /\ exists l, calls (snd (connectEach names w)) = (calls w ++ l)%list
                 /\ forallb isConnect l = true.
Proof.
  induction names as [|n rest IH]; intros w.
  - cbn. repeat split. exists []. now rewrite app_nil_r.
  - rewrite connectEach_cons.
    destruct (EmulatorRegistry.instanceOf n w) as [i|]; [|apply IH].
    destruct (connects (engines w) i).
    + destruct (IH (record_call (Connect i) w)) as (Hi & Hf & l & Hl & Hall).
      repeat split; trivial. exists (Connect i :: l). split; [|exact Hall].
      rewrite Hl. cbn [calls record_call]. now rewrite <- app_assoc.
    + cbn [snd]. repeat split. now exists [Connect i].
Qed.

Lemma connects_no_start (l : list Call) (i : EmulatorInstance) :
  forallb isConnect l = true -> ~ In (Start i) l.
Proof.
  intros H Hin. rewrite forallb_forall in H. now apply H in Hin.
Qed.

Lemma connects_no_stop (l : list Call) :
  forallb isConnect l = true -> existsb isStop l = false.
Proof.
  induction l as [|c l IH]; [reflexivity|].
  destruct c; cbn [forallb isConnect andb existsb isStop orb];
    try discriminate; exact IH.
Qed.

Lemma stops_no_start (l : list Call) (i : EmulatorInstance) :
  forallb isStop l = true -> ~ In (Start i) l.
Proof.
  intros H Hin. rewrite forallb_forall in H. now apply H in Hin.
Qed.

(** *** Only what is selected is started *)

Lemma script_startsWithin (A : Type) (m : M A) (l : list Emulators) :
  script A m l -> startsWithin m l.
Proof.
  induction 1 as [A m Hm|A e l|i|names|A B m k l1 l2 _ IHm _ IHk]; intros w.
  - exists []. rewrite (Hm w), app_nil_r. split; [reflexivity|intros ? []].
  - exists []. cbn. rewrite app_nil_r. split; [reflexivity|intros ? []].
  - destruct (startEmulator_trace i w) as (l & Hl & Hcase).
    eexists. split; [exact Hl|].
    intros j [Hj|[Hj|Hj]]; try discriminate.
    destruct Hcase as [[_ [->| ->]]|[_ Hs]].
    + destruct Hj.
    + destruct Hj as [[= ->]|[]]. now left.
    + now apply stops_no_start in Hj.
  - destruct (connectEach_frame names w) as (_ & _ & l & Hl & Hall).
    exists l. split; [exact Hl|]. intros j Hj.
    now apply connects_no_start in Hj.
  - unfold bind. destruct (IHm w) as (la & Hca & Ha).
    destruct (m w) as [[a|e] w1]; cbn [fst snd] in *.
    + destruct (IHk a w1) as (lb & Hcb & Hb). exists (la ++ lb)%list.
      split; [now rewrite Hcb, Hca, app_assoc|].
      intros j Hj. apply in_app_iff. apply in_app_iff in Hj as [Hj|Hj]; auto.
    + exists la. split; [exact Hca|].
      intros j Hj. apply in_app_iff. auto.
Qed.

(** X9.  startAll invokes the start operation of no instance but those of
    the kinds shouldStart selects: a service that is not configured, or
    that --only leaves out, is never started. *)
Theorem startAll_starts_only_selected (options : Options) (w : World) :
  forallb (startsSelected options) (newCalls w (snd (startAll options w))) = true.
Proof.
  destruct (script_startsWithin _ _ _ (script_startAll options) w)
    as (l & Hl & Hin).
  rewrite (newCalls_app _ _ _ Hl). apply forallb_forall.
  intros [| |i| | |] Hc; try reflexivity. cbn [startsSelected].
  destruct (Hin i Hc) as [<-|Hsel]; [reflexivity|].
  unfold selected in Hsel. now apply filter_In in Hsel.
Qed.

(** *** What a successful run leaves in the registry *)

Lemma script_registers (A : Type) (m : M A) (l : list Emulators) :
  script A m l -> registers m l.
Proof.
  induction 1 as [A m Hm|A e l|i|names|A B m k l1 l2 _ IHm _ IHk]; intros w.
  - rewrite (Hm w). destruct (fst (m w)); [now rewrite app_nil_r|exact I].
  - exact I.
  - destruct (fst (startEmulator i w)) as [[]|e] eqn:E; [|exact I].
    destruct (startEmulator_ok i w E) as (_ & ->).
    unfold afterStart. cbn [INSTANCES set_INSTANCES]. now rewrite map_app.
  - destruct (connectEach_frame names w) as (Hi & _).
    rewrite Hi. destruct (fst _); [now rewrite app_nil_r|exact I].
  - unfold bind. specialize (IHm w).
    destruct (m w) as [[a|e] w1]; cbn [fst snd] in *; [|exact I].
    specialize (IHk a w1). destruct (fst (k a w1)); [|exact I].
    now rewrite IHk, IHm, app_assoc.
Qed.

(** X10.  When startAll succeeds, the registry holds what it held before
    followed by the hub and the selected services, in the order FUNCTIONS,
    FIRESTORE, DATABASE, HOSTING, PUBSUB; this is what listRunning then
    returns. *)
Theorem startAll_success_registry (options : Options) (w : World) :
  fst (startAll options w) = Ok tt ->
  fst (EmulatorRegistry.listRunning (snd (startAll options w)))
  = Ok (map getName (INSTANCES w)
          ++ HUB :: List.filter (shouldStart options)
                      [FUNCTIONS; FIRESTORE; DATABASE; HOSTING; PUBSUB])%list.
Proof.
  intros Hok. pose proof (script_registers _ _ _ (script_startAll options) w) as H.
  rewrite Hok in H. cbn [EmulatorRegistry.listRunning gets fst].
  now rewrite H.
Qed.

Lemma startAll_success_registry_witness :
  fst (EmulatorRegistry.listRunning
         (snd (startAll Cases.repeating (Scenario.fresh Scenario.obliging))))
  = Ok [HUB; FIRESTORE; HOSTING].
Proof.
  apply (startAll_success_registry Cases.repeating
           (Scenario.fresh Scenario.obliging)).
  vm_compute. reflexivity.
Defined.

(** *** startAll writes no file *)

Lemma script_keepsFiles (A : Type) (m : M A) (l : list Emulators) :
  script A m l -> keepsFiles m.
Proof.
  induction 1 as [A m Hm|A e l|i|names|A B m k l1 l2 _ IHm _ IHk]; intros w.
  - now rewrite (Hm w).
  - reflexivity.
  - apply startEmulator_files.
  - now destruct (connectEach_frame names w) as (_ & Hf & _).
  - unfold bind. specialize (IHm w).
    destruct (m w) as [[a|e] w1]; cbn [fst snd] in *; [|exact IHm].
    now rewrite (IHk a w1).
Qed.

(** X11.  startAll reads the file store (the metadata of an import, the
    rules files) and never writes it, whether it succeeds or fails. *)
Theorem startAll_keeps_files (options : Options) (w : World) :
  files (snd (startAll options w)) = files w.
Proof. exact (script_keepsFiles _ _ _ (script_startAll options) w). Qed.

(** *** startAll stops nothing unless a port is taken *)

Lemma closed_answer (a : Address) (w : World) :
  portOpen a w = false ->
  closedProbe (Probe (port a) (host a) (probeAnswer a w)) = true.
Proof.
  unfold portOpen, probeAnswer.
  destruct ((0 <=? port a) && (port a <=? 65535)); [|reflexivity].
  destruct (inUse a w); [reflexivity|discriminate].
Qed.

Lemma script_stopsAfterProbe (A : Type) (m : M A) (l : list Emulators) :
  script A m l -> stopsAfterProbe m.
Proof.
  induction 1 as [A m Hm|A e l|i|names|A B m k l1 l2 _ IHm _ IHk]; intros w.
  - exists []. rewrite (Hm w), app_nil_r. now split.
  - exists []. cbn. rewrite app_nil_r. now split.
  - destruct (startEmulator_trace i w) as (l & Hl & Hcase).
    eexists. split; [exact Hl|].
    destruct Hcase as [[_ [->| ->]]|[Hp _]]; try reflexivity.
    intros H. exfalso.
    change (false
            || (closedProbe
                  (Probe (port (getInfo i)) (host (getInfo i))
                     (probeAnswer (getInfo i) w))
                || existsb closedProbe l) = false) in H.
    rewrite (closed_answer _ _ Hp) in H. discriminate H.
  - destruct (connectEach_frame names w) as (_ & _ & l & Hl & Hall).
    exists l. split; [exact Hl|]. intros _. now apply connects_no_stop.
  - unfold bind. destruct (IHm w) as (la & Hca & Ha).
    destruct (m w) as [[a|e] w1]; cbn [fst snd] in *.
    + destruct (IHk a w1) as (lb & Hcb & Hb). exists (la ++ lb)%list.
      split; [now rewrite Hcb, Hca, app_assoc|].
      rewrite !existsb_app. intros [H1 H2]%orb_false_iff.
      now rewrite (Ha H1), (Hb H2).
    + exists la. now split.
Qed.

(** X12.  The only failure on which startAll shuts down what it started
    is a taken port: in a run in which every probe finds its port free, no
    instance is stopped, whatever else fails (a missing project, a missing
    or unreadable metadata file, an engine that does not start, a
    connect that is rejected). *)
Theorem startAll_stops_only_on_taken_port (options : Options) (w : World) :
  existsb closedProbe (newCalls w (snd (startAll options w))) = false ->
  existsb isStop (newCalls w (snd (startAll options w))) = false.
Proof.
  destruct (script_stopsAfterProbe _ _ _ (script_startAll options) w)
    as (l & Hl & H).
  now rewrite (newCalls_app _ _ _ Hl).
Qed.

Lemma startAll_stops_only_on_taken_port_witness :
  existsb isStop
    (newCalls (Scenario.fresh Cases.noFirestore)
       (snd (startAll Scenario.firestoreAndHosting
               (Scenario.fresh Cases.noFirestore)))) = false
  /\ fst (startAll Scenario.firestoreAndHosting (Scenario.fresh Cases.noFirestore))
     = Err (Rejected (InstanceStart FIRESTORE)).
Proof.
  split.
  - apply (startAll_stops_only_on_taken_port Scenario.firestoreAndHosting
             (Scenario.fresh Cases.noFirestore)).
    vm_compute. reflexivity.
  - vm_compute. reflexivity.
Defined.

(** *** The hub's port *)

Lemma firstFree_some (n : nat) (h : string) :
  forall (p q : Z) (w : World),
    firstFree n h p w = Some q ->
    p <= q < p + Z.of_nat n
    /\ inUse {| host := h; port := q |} w = false
    /\ forall r, p <= r < q -> inUse {| host := h; port := r |} w = true.
Proof.
  induction n as [|n IH]; intros p q w H; [discriminate H|].
  cbn [firstFree] in H.
  destruct (inUse {| host := h; port := p |} w) eqn:E.
  - destruct (IH _ _ _ H) as (Hr & Hq & Hbelow).
    split; [lia|split; [exact Hq|]].
    intros r Hrange. destruct (Z.eq_dec r p) as [->|Hne]; [exact E|].
    apply Hbelow. lia.
  - injection H as <-. split; [lia|split; [exact E|]]. intros r Hr. lia.
Qed.

Lemma firstFree_none (n : nat) (h : string) :
  forall (p : Z) (w : World),
    (forall r, p <= r < p + Z.of_nat n ->
               inUse {| host := h; port := r |} w = true) ->
    firstFree n h p w = None.
Proof.
  induction n as [|n IH]; intros p w H; [reflexivity|].
  cbn [firstFree]. rewrite (H p) by lia. apply IH. intros r Hr. apply H. lia.
Qed.

(** X13.  When the hub has been started, it listens on the first port
    from its configured one that was free, at most a hundred above it,
    on its configured host: every port below it in the window was
    taken. *)
Theorem startHub_first_free_port (options : Options) (projectId : option string)
  (w : World) :
  fst (startHub options projectId w) = Ok tt ->
  exists q,
    port (address options HUB) <= q <= port (address options HUB) + 100
    /\ inUse {| host := host (address options HUB); port := q |} w = false
    /\ (forall r, port (address options HUB) <= r < q ->
          inUse {| host := host (address options HUB); port := r |} w = true)
    /\ INSTANCES (snd (startHub options projectId w))
       = (INSTANCES w
            ++ [EmulatorHub
                  {| EmulatorHubArgs.projectId := projectId;
                     EmulatorHubArgs.host := host (address options HUB);
                     EmulatorHubArgs.port := q |}])%list.
Proof.
  unfold startHub, bind, pf_getPortPromise, Constants.getAddress.
  rewrite window.
  destruct (firstFree 101 _ _ w) as [q|] eqn:E; [|discriminate].
  intros Hok. destruct (firstFree_some _ _ _ _ _ E) as (Hr & Hq & Hbelow).
  exists q. split; [lia|split; [exact Hq|split; [exact Hbelow|]]].
  destruct (startEmulator_ok _ w Hok) as (_ & ->). reflexivity.
Qed.

Lemma startHub_first_free_port_witness :
  exists q,
    4000 <= q <= 4000 + 100
    /\ inUse {| host := "localhost"; port := q |} Cases.hubBusy = false
    /\ (forall r, 4000 <= r < q ->
          inUse {| host := "localhost"; port := r |} Cases.hubBusy = true)
    /\ INSTANCES (snd (startHub Scenario.firestoreAndHosting None Cases.hubBusy))
       = [EmulatorHub
            {| EmulatorHubArgs.projectId := None;
               EmulatorHubArgs.host := "localhost";
               EmulatorHubArgs.port := q |}].
Proof.
  apply (startHub_first_free_port Scenario.firestoreAndHosting None Cases.hubBusy).
  vm_compute. reflexivity.
Defined.

(** X14.  With a configured hub port from 0 to 65435, starting the hub
    never runs into a taken port: it never fails with the port-taken
    condition and never shuts anything down. *)
Theorem startHub_never_rolls_back (options : Options) (projectId : option string)
  (w : World) :
  0 <= port (address options HUB) ->
  port (address options HUB) + 100 <= 65535 ->
  isPortTaken (fst (startHub options projectId w)) = false
  /\ existsb isStop (newCalls w (snd (startHub options projectId w))) = false.
Proof.
  intros Hlo Hhi.
  unfold startHub, bind, pf_getPortPromise, Constants.getAddress.
  rewrite window.
  destruct (firstFree 101 _ _ w) as [q|] eqn:E.
  - destruct (firstFree_some _ _ _ _ _ E) as (Hr & Hq & _).
    set (hub := EmulatorHub _).
    assert (Hp : portOpen (getInfo hub) w = true).
    { unfold portOpen. subst hub. cbn [getInfo port EmulatorHubArgs.port
                                        EmulatorHubArgs.host].
      rewrite Hq. cbn [negb]. rewrite andb_true_r.
      apply andb_true_iff. split; apply Z.leb_le; lia. }
    destruct (startEmulator_trace hub w) as (l & Hl & Hcase).
    rewrite (newCalls_app _ _ _ Hl).
    destruct Hcase as [[_ Hcase]|[Hc _]]; [|congruence].
    split.
    + rewrite startEmulator_eq, Hp, registry_start_eq.
      destruct (EmulatorRegistry.registered _ _); [reflexivity|].
      now destruct (starts _ _).
    + destruct Hcase as [->| ->]; reflexivity.
  - cbn [fst snd]. split; [reflexivity|].
    unfold newCalls. now rewrite skipn_all.
Qed.

Lemma startHub_never_rolls_back_witness :
  isPortTaken (fst (startHub Scenario.firestoreAndHosting None Cases.hubBusy))
  = false
  /\ existsb isStop
       (newCalls Cases.hubBusy
          (snd (startHub Scenario.firestoreAndHosting None Cases.hubBusy)))
     = false.
Proof.
  apply (startHub_never_rolls_back Scenario.firestoreAndHosting None
           Cases.hubBusy); vm_compute; discriminate.
Defined.

(** X15.  When every port from the hub's configured one to a hundred
    above it is taken on its host, startAll fails with the port finder's
    rejection and has done nothing: no instance was tracked, probed or
    started. *)
Theorem startAll_without_free_hub_port (options : Options) (w : World) :
  (forall r,
     port (address options HUB) <= r <= port (address options HUB) + 100 ->
     inUse {| host := host (address options HUB); port := r |} w = true) ->
  startAll options w = (Err (Rejected PortFinder), w).
Proof.
  intros H. unfold startAll.
  rewrite (bind_ok _ _ _ _ _ (getProjectId_allowNull _ w)).
  unfold bind at 1. unfold startHub, bind, pf_getPortPromise, Constants.getAddress.
  cbn [address set_targets]. rewrite window, firstFree_none; [reflexivity|].
  intros r Hr. apply H. lia.
Qed.

Lemma startAll_without_free_hub_port_witness :
  startAll Scenario.firestoreAndHosting
    (set_listening
       (map (fun n => {| host := "localhost"; port := 4000 + Z.of_nat n |})
          (seq 0 101))
       (Scenario.fresh Scenario.obliging))
  = (Err (Rejected PortFinder),
     set_listening
       (map (fun n => {| host := "localhost"; port := 4000 + Z.of_nat n |})
          (seq 0 101))
       (Scenario.fresh Scenario.obliging)).
Proof.
  apply (startAll_without_free_hub_port Scenario.firestoreAndHosting).
  intros r Hr. unfold inUse. cbn [listening set_listening].
  apply existsb_exists.
  exists {| host := "localhost"; port := 4000 + Z.of_nat (Z.to_nat (r - 4000)) |}.
  cbn [Scenario.firestoreAndHosting Scenario.optionsOf address
       Scenario.defaultAddress host port] in *.
  split.
  - apply in_map_iff. exists (Z.to_nat (r - 4000)).
    split; [reflexivity|apply in_seq; lia].
  - unfold Address_eqb. cbn [host port]. rewrite Z2Nat.id by lia.
    replace (4000 + (r - 4000)) with r by lia.
    now rewrite Z.eqb_refl.
Defined.

(** *** Preconditions of the services *)

Lemma isPrefix_In (n : Emulators) (l1 l2 : list Emulators) :
  isPrefix l1 l2 = true -> In n l1 -> In n l2.
Proof.
  revert l2. induction l1 as [|x l1 IH]; intros [|y l2] H Hin;
    try destruct Hin; try discriminate H.
  - cbn [isPrefix] in H. apply andb_true_iff in H as [H1 _].
    apply Emulators_eqb_eq in H1. subst. now left.
  - cbn [isPrefix] in H. apply andb_true_iff in H as [_ H2]. right. eauto.
Qed.

Lemma emits_avoids {A : Type} (n : Emulators) (m : M A) (names : list Emulators) :
  emits m names -> ~ In n names -> avoids n m.
Proof.
  intros Hm Hn w. destruct (Hm w) as (l & Hl & Ht). exists l.
  split; [exact Hl|]. intros Hin. apply Hn.
  destruct (fst (m w)); [now rewrite <- Ht|now apply (isPrefix_In n _ _ Ht)].
Qed.

Lemma failsAvoiding_bind {A B : Type} (n : Emulators) (m : M A) (k : A -> M B) :
  avoids n m -> (forall a, failsAvoiding n (k a)) -> failsAvoiding n (bind m k).
Proof.
  intros Hm Hk w. unfold bind. destruct (Hm w) as (la & Hla & Ha).
  destruct (m w) as [[a|e] w1]; cbn [fst snd] in *.
  - destruct (Hk a w1) as (He & lb & Hlb & Hb). split; [exact He|].
    exists (la ++ lb)%list. split; [now rewrite Hlb, Hla, app_assoc|].
    rewrite tracked_app, in_app_iff. tauto.
  - split; [eauto|]. now exists la.
Qed.

Lemma failsAvoiding_first {A B : Type} (n : Emulators) (m : M A) (k : A -> M B) :
  (forall w, exists e, m w = (Err e, w)) -> failsAvoiding n (bind m k).
Proof.
  intros Hm w. unfold bind. destruct (Hm w) as (e & ->). cbn [fst snd].
  split; [eauto|]. exists []. rewrite app_nil_r. now split.
Qed.

Lemma failsAvoiding_after {A B : Type} (n : Emulators) (m : M A) (k : A -> M B)
  (a : A) :
  (forall w, m w = (Ok a, w)) -> failsAvoiding n (k a) ->
  failsAvoiding n (bind m k).
Proof.
  intros Hm Hk w. unfold bind. rewrite Hm. apply Hk.
Qed.

Lemma avoids_when (n name : Emulators) (c : bool) (m : M unit) :
  script unit m [name] -> n <> name -> avoids n (when c m).
Proof.
  intros Hm Hn.
  apply (emits_avoids n _ _ (script_emits _ _ _ (script_when c m name Hm))).
  destruct c; cbn [In]; intuition congruence.
Qed.

Lemma startPubsub_throws (o : Options) (pid : option string) (w : World) :
  truthy pid = false ->
  startPubsub o pid w = (Err (FirebaseError pubsubWithoutProject), w).
Proof.
  unfold startPubsub, truthy. destruct pid as [id|]; [|reflexivity].
  destruct (Str.isEmpty id); [reflexivity|discriminate].
Qed.

(** X16.  With the pub/sub service selected and no project identifier
    (none, or an empty one), startAll always fails, and it fails before
    the pub/sub service is handed to startEmulator: its port is never
    probed.  When the step itself is reached, it fails with the message
    that names the missing project and changes nothing. *)
Theorem startAll_pubsub_needs_project (options : Options) (w : World) :
  shouldStart options PUBSUB = true ->
  truthy (project options) = false ->
  (exists e, fst (startAll options w) = Err e)
  /\ ~ In PUBSUB (tracked (newCalls w (snd (startAll options w))))
  /\ startPubsub options (project options) w
     = (Err (FirebaseError
               "Cannot start the Pub/Sub emulator without a project: run 'firebase init' or provide the --project flag"),
        w).
Proof.
  intros Hsel Hpid.
  assert (H : failsAvoiding PUBSUB (startAll options)).
  { unfold startAll.
    set (o' := set_targets options (filterEmulatorTargets options)).
    apply (failsAvoiding_after _ _ _ (project options));
      [intros w0; exact (getProjectId_allowNull o' w0)|].
    apply failsAvoiding_bind.
    { apply (emits_avoids _ _ _ (script_emits _ _ _ (script_startHub _ _))).
      cbn [In]. intuition discriminate. }
    intros _. unfold startServices. apply failsAvoiding_bind.
    { apply (emits_avoids _ _ []
               (emits_reader _ (reader_loadExportMetadata o'))). intros []. }
    intros md. apply failsAvoiding_bind;
      [apply (avoids_when _ FUNCTIONS); [apply script_startFunctions|discriminate]|intros _].
    apply failsAvoiding_bind;
      [apply (avoids_when _ FIRESTORE); [apply script_startFirestore|discriminate]|intros _].
    apply failsAvoiding_bind;
      [apply (avoids_when _ DATABASE); [apply script_startDatabase|discriminate]|intros _].
    apply failsAvoiding_bind;
      [apply (avoids_when _ HOSTING); [apply script_startHosting|discriminate]|intros _].
    change (shouldStart o' PUBSUB) with (shouldStart options PUBSUB).
    rewrite Hsel. cbn [when]. apply failsAvoiding_first.
    intros w1. eexists. now apply startPubsub_throws. }
  destruct (H w) as (He & l & Hl & Hn).
  split; [exact He|split].
  - now rewrite (newCalls_app _ _ _ Hl).
  - now apply startPubsub_throws.
Qed.

Lemma startAll_pubsub_needs_project_witness :
  (exists e, fst (startAll Scenario.onlyPubsub (Scenario.fresh Scenario.obliging))
             = Err e)
  /\ ~ In PUBSUB
       (tracked (newCalls (Scenario.fresh Scenario.obliging)
                   (snd (startAll Scenario.onlyPubsub
                           (Scenario.fresh Scenario.obliging))))).
Proof.
  destruct (startAll_pubsub_needs_project Scenario.onlyPubsub
              (Scenario.fresh Scenario.obliging)) as (H1 & H2 & _);
    [vm_compute; reflexivity|vm_compute; reflexivity|].
  now split.
Defined.

Lemma startFunctions_throws (o : Options) (w : World) :
  get (config o) "functions.source" = None ->
  exists e, startFunctions o w = (Err e, w).
Proof.
  intros H. unfold startFunctions, bind at 1, getProjectId.
  destruct (negb (truthy (project o)) && negb false); [now eexists|].
  unfold ret, bind at 1. rewrite H. now eexists.
Qed.

(** X17.  With the functions service selected and no [functions.source]
    in the configuration, startAll always fails, and what it has handed
    to startEmulator by then is at most the hub: no service is probed or
    started. *)
Theorem startAll_functions_need_source (options : Options) (w : World) :
  shouldStart options FUNCTIONS = true ->
  get (config options) "functions.source" = None ->
  (exists e, fst (startAll options w) = Err e)
  /\ forall n, In n (tracked (newCalls w (snd (startAll options w)))) -> n = HUB.
Proof.
  intros Hsel Hsrc.
  assert (H : forall n, n <> HUB -> failsAvoiding n (startAll options)).
  { intros n Hn. unfold startAll.
    set (o' := set_targets options (filterEmulatorTargets options)).
    apply (failsAvoiding_after _ _ _ (project options));
      [intros w0; exact (getProjectId_allowNull o' w0)|].
    apply failsAvoiding_bind.
    { apply (emits_avoids _ _ _ (script_emits _ _ _ (script_startHub _ _))).
      cbn [In]. intuition congruence. }
    intros _. unfold startServices. apply failsAvoiding_bind.
    { apply (emits_avoids _ _ []
               (emits_reader _ (reader_loadExportMetadata o'))). intros []. }
    intros md.
    change (shouldStart o' FUNCTIONS) with (shouldStart options FUNCTIONS).
    rewrite Hsel. cbn [when]. apply failsAvoiding_first.
    intros w1. now apply startFunctions_throws. }
  split.
  - destruct (H FUNCTIONS ltac:(discriminate) w) as (He & _). exact He.
  - intros n Hin. destruct n; try reflexivity; exfalso;
      match goal with
      | Hin : In ?k _ |- _ =>
          destruct (H k ltac:(discriminate) w) as (_ & l & Hl & Hno);
          rewrite (newCalls_app _ _ _ Hl) in Hin; exact (Hno Hin)
      end.
Qed.

Lemma startAll_functions_need_source_witness :
  (exists e, fst (startAll Cases.functionsWithoutSource
                    (Scenario.fresh Scenario.obliging)) = Err e)
  /\ forall n,
       In n (tracked (newCalls (Scenario.fresh Scenario.obliging)
                        (snd (startAll Cases.functionsWithoutSource
                                (Scenario.fresh Scenario.obliging))))) ->
       n = HUB.
Proof.
  apply (startAll_functions_need_source Cases.functionsWithoutSource
           (Scenario.fresh Scenario.obliging)); vm_compute; reflexivity.
Defined.

(** *** The arguments of the database services *)

Lemma rulesFile_cases (o : Options) (key : string) (w : World) :
  exists r,
    rulesFile o key w = (Ok r, w)
    /\ forall p, r = Some p ->
         fileExists p w = true
         /\ exists local, get (config o) key = Some local
                          /\ p = path.join (projectRoot o) local.
Proof.
  unfold rulesFile. destruct (truthy (get (config o) key)) eqn:E.
  - destruct (get (config o) key) as [local|]; [|discriminate E].
    unfold bind, validatePath, ret, fs.existsSync, gets.
    destruct (files w !! _) eqn:Ef; eexists; (split; [reflexivity|]).
    + intros p [= <-]. unfold fileExists. rewrite Ef. eauto.
    + discriminate.
  - unfold ret. eexists. split; [reflexivity|discriminate].
Qed.

(** X18.  The realtime database is handed to startEmulator whatever the
    state of its rules file, on its configured address; it is told the
    address of the functions service exactly when that service is
    selected, and it is given a rules path only when the file named in
    the configuration exists. *)
Theorem startDatabase_arguments (options : Options) (projectId : option string)
  (w : World) :
  exists args,
    startDatabase options projectId w = startEmulator (DatabaseEmulator args) w
    /\ DatabaseEmulatorArgs.host args = host (address options DATABASE)
    /\ DatabaseEmulatorArgs.port args = port (address options DATABASE)
    /\ DatabaseEmulatorArgs.functions_emulator_host args
       = (if shouldStart options FUNCTIONS
          then Some (host (address options FUNCTIONS)) else None)
    /\ DatabaseEmulatorArgs.functions_emulator_port args
       = (if shouldStart options FUNCTIONS
          then Some (port (address options FUNCTIONS)) else None)
    /\ forall p, DatabaseEmulatorArgs.rules args = Some p ->
         fileExists p w = true
         /\ exists local, get (config options) "database.rules" = Some local
                          /\ p = path.join (projectRoot options) local.
Proof.
  destruct (rulesFile_cases options "database.rules" w) as (r & Hr & Hp).
  unfold startDatabase, bind. rewrite Hr. unfold Constants.getAddress.
  destruct r as [p|]; destruct (shouldStart options FUNCTIONS);
    eexists; (split; [reflexivity|]); cbn;
    do 4 (split; [reflexivity|]); intros q Hq; try discriminate Hq;
    injection Hq as <-; apply (Hp p eq_refl).
Qed.

(** X19.  A document database whose export metadata has no truthy
    [firestore] property, which is the case of a start without an import,
    is handed to startEmulator without a seed, and with a rules path only
    when the file named in the configuration exists; export metadata that
    is the JSON null makes the step fail with a TypeError instead, before
    anything is probed. *)
Theorem startFirestore_without_seed (options : Options) (projectId : option string)
  (exportMetadata : JSON.value) (w : World) :
  (truthy (import options) = false ->
   fst (loadExportMetadata options w) = Ok exportMetadata ->
   unseeded exportMetadata = true)
  /\ (unseeded exportMetadata = true ->
      exists args,
        startFirestore options projectId exportMetadata w
        = startEmulator (FirestoreEmulator args) w
        /\ FirestoreEmulatorArgs.seed_from_export args = None
        /\ FirestoreEmulatorArgs.host args = host (address options FIRESTORE)
        /\ FirestoreEmulatorArgs.port args = port (address options FIRESTORE)
        /\ forall p, FirestoreEmulatorArgs.rules args = Some p ->
             fileExists p w = true)
  /\ (exportMetadata = JSON.Null ->
      exists message,
        startFirestore options projectId exportMetadata w
        = (Err (TypeError message), w)).
Proof.
  split; [|split].
  - unfold loadExportMetadata. intros ->. cbn. now intros [= <-].
  - intros Hu.
    destruct (rulesFile_cases options "firestore.rules" w) as (r & Hr & Hp).
    assert (Hseed : forall a, seedFirestore options exportMetadata a w = (Ok a, w)).
    { intros a. unfold seedFirestore, bind, getProperty.
      destruct exportMetadata; try discriminate Hu; try reflexivity.
      cbn [unseeded] in Hu. apply negb_true_iff in Hu. unfold ret.
      now rewrite Hu. }
    unfold startFirestore, bind. rewrite Hseed, Hr. unfold Constants.getAddress.
    destruct r as [p|]; eexists; (split; [reflexivity|]); cbn;
      do 3 (split; [reflexivity|]); intros q Hq; try discriminate Hq.
    injection Hq as <-. apply (Hp p eq_refl).
  - intros ->. eexists. reflexivity.
Qed.

Lemma startFirestore_without_seed_witness :
  exists args,
    startFirestore Cases.withRules (Some "demo")
      (JSON.Object [("version", JSON.Str "unknown")]) Cases.rulesOnDisk
    = startEmulator (FirestoreEmulator args) Cases.rulesOnDisk
    /\ FirestoreEmulatorArgs.seed_from_export args = None.
Proof.
  destruct (proj1 (proj2 (startFirestore_without_seed Cases.withRules
                            (Some "demo")
                            (JSON.Object [("version", JSON.Str "unknown")])
                            Cases.rulesOnDisk)))
    as (args & H1 & H2 & _); [reflexivity|].
  exists args. now split.
Defined.

(** ** More on the export *)

(** X20.  exportAll writes one file at most, the metadata file of the
    export directory: every other file is as it was, and a metadata file
    that was there is replaced, not merged. *)
Theorem exportAll_touches_one_file (self : HubExport.t) (w : World) (p : string) :
  (p <> path.resolve (cwd w)
          (path.join (HubExport.exportPath self) "metadata.json") ->
   files (snd (HubExport.exportAll self w)) !! p = files w !! p)
  /\ (fst (HubExport.exportAll self w) = Ok tt ->
      files (snd (HubExport.exportAll self w))
        !! path.resolve (cwd w)
             (path.join (HubExport.exportPath self) "metadata.json")
      = Some (JSON.stringify
                (ExportMetadata.toJSON
                   {| ExportMetadata.version := CLI_VERSION w;
                      ExportMetadata.firestore := Some "firestore_export" |}))).
Proof.
  destruct (EmulatorRegistry.registered FIRESTORE w) eqn:Hr.
  - destruct (registered_instanceOf _ _ Hr) as (i & Hi & _).
    rewrite (exportAll_running self w i Hi Hr). cbv zeta.
    destruct (exports (engines w)); cbn [fst snd files set_files record_call].
    + split; [intros Hp; apply lookup_insert_ne; intros E; apply Hp;
              symmetry; exact E|].
      intros _. apply lookup_insert_eq.
    + split; [reflexivity|discriminate].
  - rewrite (exportAll_idle self w Hr). cbn [fst snd].
    split; [reflexivity|discriminate].
Qed.

Lemma exportAll_touches_one_file_witness :
  files (snd (HubExport.exportAll Scenario.exporter Cases.reexporting))
    !! "/tmp/export/notes.txt" = Some "keep"
  /\ files (snd (HubExport.exportAll Scenario.exporter Cases.reexporting))
       !! "/tmp/export/metadata.json"
     = Some (JSON.stringify
               (ExportMetadata.toJSON
                  {| ExportMetadata.version := "7.12.1";
                     ExportMetadata.firestore := Some "firestore_export" |})).
Proof.
  split.
  - rewrite (proj1 (exportAll_touches_one_file Scenario.exporter
                      Cases.reexporting "/tmp/export/notes.txt")).
    + vm_compute. reflexivity.
    + vm_compute. discriminate.
  - apply (proj2 (exportAll_touches_one_file Scenario.exporter
                    Cases.reexporting "/tmp/export/notes.txt")).
    vm_compute. reflexivity.
Defined.

(** X21.  exportAll starts and stops nothing: the registry and the
    listeners are as they were, whether it succeeds or fails, and the one
    call it may make is the export request. *)
Theorem exportAll_leaves_cluster (self : HubExport.t) (w : World) :
  INSTANCES (snd (HubExport.exportAll self w)) = INSTANCES w
  /\ listening (snd (HubExport.exportAll self w)) = listening w
  /\ (newCalls w (snd (HubExport.exportAll self w)) = []
      \/ exists i, EmulatorRegistry.instanceOf FIRESTORE w = Some i
                   /\ newCalls w (snd (HubExport.exportAll self w))
                      = [exportRequest self i]).
Proof.
  assert (Hnew : forall c, newCalls w (record_call c w) = [c]).
  { intros c. apply newCalls_app. reflexivity. }
  destruct (EmulatorRegistry.registered FIRESTORE w) eqn:Hr.
  - destruct (registered_instanceOf _ _ Hr) as (i & Hi & _).
    rewrite (exportAll_running self w i Hi Hr). cbv zeta.
    destruct (exports (engines w)); cbn [fst snd];
      (split; [reflexivity|split; [reflexivity|]]); right; exists i;
      (split; [exact Hi|]); apply (Hnew (exportRequest self i)).
  - rewrite (exportAll_idle self w Hr). cbn [fst snd].
    split; [reflexivity|split; [reflexivity|]]. left.
    unfold newCalls. now rewrite skipn_all.
Qed.

(** X22.  A successful export is consistent: exactly one request was
    sent, to the address of the registered document database, and the
    metadata file lies in the directory named in the request and records,
    under [firestore], the export name sent in the request. *)
Theorem exportAll_request_matches_metadata (self : HubExport.t) (w : World) :
  fst (HubExport.exportAll self w) = Ok tt ->
  exists i data,
    EmulatorRegistry.instanceOf FIRESTORE w = Some i
    /\ newCalls w (snd (HubExport.exportAll self w))
       = [Request "POST"
            ("/emulator/v1/projects/" ++ HubExport.projectId self ++ ":export")
            ("http://" ++ host (getInfo i) ++ ":" ++ pretty (port (getInfo i)))
            data]
    /\ database data
       = "projects/" ++ HubExport.projectId self ++ "/databases/(default)"
    /\ files (snd (HubExport.exportAll self w))
         !! path.resolve (cwd w) (path.join (export_directory data) "metadata.json")
       = Some (JSON.stringify
                 (ExportMetadata.toJSON
                    {| ExportMetadata.version := CLI_VERSION w;
                       ExportMetadata.firestore := Some (export_name data) |})).
Proof.
  destruct (EmulatorRegistry.registered FIRESTORE w) eqn:Hr.
  - destruct (registered_instanceOf _ _ Hr) as (i & Hi & _).
    rewrite (exportAll_running self w i Hi Hr). cbv zeta.
    destruct (exports (engines w)); cbn [fst snd]; [|discriminate].
    intros _. exists i. eexists. split; [exact Hi|split; [|split]].
    + apply newCalls_app. reflexivity.
    + reflexivity.
    + cbn [files set_files export_directory export_name]. apply lookup_insert_eq.
  - rewrite (exportAll_idle self w Hr). discriminate.
Qed.

Lemma exportAll_request_matches_metadata_witness :
  let w := Scenario.started Scenario.obliging in
  let self := Scenario.exporter in
  exists i data,
    EmulatorRegistry.instanceOf FIRESTORE w = Some i
    /\ newCalls w (snd (HubExport.exportAll self w))
       = [Request "POST"
            ("/emulator/v1/projects/" ++ HubExport.projectId self ++ ":export")
            ("http://" ++ host (getInfo i) ++ ":" ++ pretty (port (getInfo i)))
            data]
    /\ database data
       = "projects/" ++ HubExport.projectId self ++ "/databases/(default)"
    /\ files (snd (HubExport.exportAll self w))
         !! path.resolve (cwd w) (path.join (export_directory data) "metadata.json")
       = Some (JSON.stringify
                 (ExportMetadata.toJSON
                    {| ExportMetadata.version := CLI_VERSION w;
                       ExportMetadata.firestore := Some (export_name data) |})).
Proof.
  intros w self.
  apply (exportAll_request_matches_metadata self w).
  vm_compute. reflexivity.
Defined.

(** ** Where the instances are placed *)

Lemma seedFirestore_address (o : Options) (md : JSON.value)
  (args a : FirestoreEmulatorArgs.t) (w : World) :
  fst (seedFirestore o md args w) = Ok a ->
  FirestoreEmulatorArgs.host a = FirestoreEmulatorArgs.host args
  /\ FirestoreEmulatorArgs.port a = FirestoreEmulatorArgs.port args.
Proof.
  unfold seedFirestore, bind.
  destruct (getProperty md "firestore" w) as [[f|e] w1]; [|discriminate].
  destruct (truthyValue f); [|now intros [= <-]].
  destruct (validatePath (import o) w1) as [[dir|e] w2]; [|discriminate].
  destruct (gets cwd w2) as [[here|e] w3]; [|discriminate].
  destruct (validateString f w3) as [[name|e] w4]; [|discriminate].
  now intros [= <-].
Qed.

Ltac place_tac :=
  unfold configuredPlace, Constants.getAddress;
  repeat match goal with x := _ |- _ => subst x end; cbn;
  split;
  [ reflexivity
  | split;
    [ intros H; first [reflexivity | exfalso; apply H; reflexivity]
    | intros ? E; first [discriminate E | injection E as <-; reflexivity] ] ].

Ltac placed_tac :=
  repeat first
    [ apply placed_start; place_tac
    | apply placed_connect
    | apply placed_bind; [apply placed_reader; solve [reader_tac]|intros ?]
    | match goal with
      | |- placed _ _ (match ?x with _ => _ end) => destruct x
      end
    | apply placed_reader; solve [reader_tac] ].

Lemma placed_when (P : EmulatorInstance -> Prop) (c : bool) (m : M unit) :
  placed P unit m -> placed P unit (when c m).
Proof. intros H. destruct c; [exact H|apply placed_reader, reader_ret]. Qed.

Lemma placed_startFirestore (o : Options) (t : list Emulators)
  (pid : option string) (md : JSON.value) :
  placed (configuredPlace o) unit (startFirestore (set_targets o t) pid md).
Proof.
  unfold startFirestore. cbv zeta.
  eapply placed_after;
    [apply reader_seedFirestore|intros w a; apply seedFirestore_address|].
  intros a [Hh Hp]. cbn in Hh, Hp.
  apply placed_bind; [apply placed_reader, reader_rulesFile|intros rules].
  apply placed_start. unfold configuredPlace, Constants.getAddress in *.
  destruct rules; cbn; rewrite Hh, Hp; repeat split; discriminate.
Qed.

Lemma placed_startDatabase (o : Options) (t : list Emulators)
  (pid : option string) :
  placed (configuredPlace o) unit (startDatabase (set_targets o t) pid).
Proof.
  unfold startDatabase. cbv zeta.
  apply placed_bind; [apply placed_reader, reader_rulesFile|intros rules].
  apply placed_start. unfold configuredPlace, Constants.getAddress.
  destruct rules, (shouldStart (set_targets o t) FUNCTIONS); cbn;
    repeat split; discriminate.
Qed.

Lemma placed_startAll (o : Options) :
  placed (configuredPlace o) unit (startAll o).
Proof.
  unfold startAll. cbv zeta.
  set (o' := set_targets o (filterEmulatorTargets o)).
  apply placed_bind; [apply placed_reader, reader_getProjectId|intros pid].
  apply placed_bind.
  { unfold startHub. placed_tac. }
  intros _. unfold startServices.
  apply placed_bind; [apply placed_reader, reader_loadExportMetadata|intros md].
  apply placed_bind;
    [apply placed_when; unfold startFunctions; placed_tac|intros _].
  apply placed_bind;
    [apply placed_when, placed_startFirestore|intros _].
  apply placed_bind;
    [apply placed_when, placed_startDatabase|intros _].
  apply placed_bind;
    [apply placed_when; unfold startHosting; placed_tac|intros _].
  apply placed_bind;
    [apply placed_when; unfold startPubsub; placed_tac|intros _].
  apply placed_bind; [apply placed_reader, reader_gets|intros names].
  apply placed_connect.
Qed.

Lemma placed_starts (P : EmulatorInstance -> Prop) (A : Type) (m : M A) :
  placed P A m ->
  forall w,
    exists l, calls (snd (m w)) = (calls w ++ l)%list
      /\ forall i, In (Start i) l -> P i.
Proof.
  induction 1 as [A m Hm|i Hi|names|A B m k Q Hm HQ _ IHk|A B m k _ IHm _ IHk];
    intros w.
  - exists []. rewrite (Hm w), app_nil_r. split; [reflexivity|intros ? []].
  - destruct (startEmulator_trace i w) as (l & Hl & Hcase).
    eexists. split; [exact Hl|].
    intros j [Hj|[Hj|Hj]]; try discriminate.
    destruct Hcase as [[_ [->| ->]]|[_ Hs]].
    + destruct Hj.
    + destruct Hj as [[= ->]|[]]. exact Hi.
    + now apply stops_no_start in Hj.
  - destruct (connectEach_frame names w) as (_ & _ & l & Hl & Hall).
    exists l. split; [exact Hl|]. intros j Hj.
    now apply connects_no_start in Hj.
  - unfold bind. pose proof (Hm w) as E. specialize (HQ w).
    destruct (m w) as [[a|e] w1]; cbn [fst snd] in *; subst w1.
    + apply IHk. now apply HQ.
    + exists []. rewrite app_nil_r. split; [reflexivity|intros ? []].
  - unfold bind. destruct (IHm w) as (la & Hca & Ha).
    destruct (m w) as [[a|e] w1]; cbn [fst snd] in *.
    + destruct (IHk a w1) as (lb & Hcb & Hb). exists (la ++ lb)%list.
      split; [now rewrite Hcb, Hca, app_assoc|].
      intros j Hj. apply in_app_iff in Hj as [Hj|Hj]; auto.
    + exists la. now split.
Qed.

(** X23.  startAll never moves a service: every instance whose start it
    invokes is on the host configured for its kind and, the hub apart, on
    exactly the configured port; and the hosting instance is given the
    options of the run with the computed targets stored in them. *)
Theorem startAll_configured_addresses (options : Options) (w : World)
  (i : EmulatorInstance) :
  In (Start i) (newCalls w (snd (startAll options w))) ->
  host (getInfo i) = host (address options (getName i))
  /\ (getName i <> HUB -> port (getInfo i) = port (address options (getName i)))
  /\ forall a, i = HostingEmulator a ->
       targets (HostingEmulatorArgs.options a)
       = Some (filterEmulatorTargets options).
Proof.
  destruct (placed_starts _ _ _ (placed_startAll options) w) as (l & Hl & H).
  rewrite (newCalls_app _ _ _ Hl). apply H.
Qed.

Lemma startAll_configured_addresses_witness :
  host (getInfo Scenario.firestoreInstance) = "localhost"
  /\ (FIRESTORE <> HUB -> port (getInfo Scenario.firestoreInstance) = 8080).
Proof.
  destruct (startAll_configured_addresses Scenario.firestoreAndHosting
              Cases.hubBusy Scenario.firestoreInstance) as (H1 & H2 & _).
  - vm_compute. auto 10.
  - split; [exact H1|exact H2].
Defined.
